(** * Fruit pricing dashboard: the filter-and-aggregate pipeline of assignment.py

    The script loads a table of fruit prices, derives a month column from the
    begin date, narrows the table by four user selections, computes summary
    metrics and grouped means, drops placeholder columns from the filtered
    table and serialises it.

    Modelling choices.
    - A pandas DataFrame is a list of column names and a list of labelled
      rows; a Series is the list of the cells of one column.
    - A cell is a missing value (NaN, NaT), a text, a number or a date.
      Numbers are exact rationals: the rounding of binary floating point is
      not modelled.
    - Text is a sequence of one-byte characters; digits and letters outside
      ASCII are not modelled.
    - Operations that raise in Python return [Err].
    - Lines of the exported file end in LF.
    - The widgets and the charts are not part of the model: the selections
      are an input, the charts an output nobody reads. *)

From Stdlib Require Import QArith Qround ZArith List String Ascii Bool Lia Permutation Sorted.
From stdpp Require Import base list gmap strings sorting.
Import ListNotations.
Open Scope string_scope.

(** ** Cells, rows and frames *)

Inductive cell : Type :=
| NaN
| Str (s : string)
| Num (q : Q)
| Date (y m d : Z).

(** Equality as the hash tables behind [isin] and [unique] see it: two
    missing values are equal, numbers are compared by value. *)
Definition cell_eqb (a b : cell) : bool :=
  match a, b with
  | NaN, NaN => true
  | Str s, Str t => String.eqb s t
  | Num p, Num q => Qeq_bool p q
  | Date y m d, Date y' m' d' => Z.eqb y y' && Z.eqb m m' && Z.eqb d d'
  | _, _ => false
  end.

Definition Series := list cell.

Record Row := mkRow { label : nat; cells : list cell }.

Record DataFrame := mkDF { columns : list string; rows : list Row }.

Inductive error : Type :=
| KeyError (name : string)
| ValueError
| TypeError
| IndexError
| NameError.

Inductive result (A : Type) : Type :=
| Ok (a : A)
| Err (e : error).
Arguments Ok {A} a.
Arguments Err {A} e.

#[global] Instance result_ret : MRet result := fun _ a => Ok a.
#[global] Instance result_bind : MBind result := fun _ _ f m =>
  match m with Ok a => f a | Err e => Err e end.

(** Every row has one cell per column. *)
Definition wf_frame (d : DataFrame) : Prop :=
  Forall (fun r => length (cells r) = length (columns d)) (rows d).

(** ** Column access *)

Fixpoint index_of (name : string) (cols : list string) : option nat :=
  match cols with
  | [] => None
  | c :: cs => if String.eqb c name then Some 0%nat
               else option_map S (index_of name cs)
  end.

Definition cell_at (i : nat) (r : Row) : cell := nth i (cells r) NaN.

(** [d[name]]: the column as a Series, [KeyError] when there is none. *)
Definition getitem (d : DataFrame) (name : string) : result Series :=
  match index_of name (columns d) with
  | Some i => Ok (map (cell_at i) (rows d))
  | None => Err (KeyError name)
  end.

(** The cell of row [r] under column [name] of frame [d]. *)
Definition field (d : DataFrame) (name : string) (r : Row) : cell :=
  match index_of name (columns d) with
  | Some i => cell_at i r
  | None => NaN
  end.

Definition set_cell (i : nat) (r : Row) (c : cell) : Row :=
  mkRow (label r) (<[i := c]> (cells r)).

Definition add_cell (r : Row) (c : cell) : Row :=
  mkRow (label r) (cells r ++ [c]).

(** [d[name] = s] for a Series [s] over the index of [d]: an existing column
    is overwritten in place, a new one is appended on the right. *)
Definition setitem (d : DataFrame) (name : string) (s : Series) : result DataFrame :=
  if negb (Nat.eqb (length s) (length (rows d))) then Err ValueError
  else match index_of name (columns d) with
       | Some i => Ok (mkDF (columns d) (zip_with (set_cell i) (rows d) s))
       | None => Ok (mkDF (columns d ++ [name]) (zip_with add_cell (rows d) s))
       end.

(** ** Loader: [pd.to_datetime(..., format='%d/%m/%Y')] and [.dt.month] *)

Open Scope Z_scope.

Definition is_digit (c : ascii) : bool :=
  let n := nat_of_ascii c in (48 <=? n)%nat && (n <=? 57)%nat.

Definition digit_val (c : ascii) : Z := Z.of_nat (nat_of_ascii c) - 48.

Definition in_range (lo hi : ascii) (c : ascii) : bool :=
  (nat_of_ascii lo <=? nat_of_ascii c)%nat && (nat_of_ascii c <=? nat_of_ascii hi)%nat.

(** The directive [%d] is the regular expression
    [3[0-1]|[1-2]\d|0[1-9]|[1-9]| [1-9]]; each function below returns every
    way one directive matches a prefix, in the order of its alternatives. *)
Definition match_d (s : list ascii) : list (Z * list ascii) :=
  match s with
  | a :: b :: t =>
      (if Ascii.eqb a "3" && in_range "0" "1" b then [(30 + digit_val b, t)] else []) ++
      (if in_range "1" "2" a && is_digit b then [(10 * digit_val a + digit_val b, t)] else []) ++
      (if Ascii.eqb a "0" && in_range "1" "9" b then [(digit_val b, t)] else []) ++
      (if in_range "1" "9" a then [(digit_val a, b :: t)] else []) ++
      (if Ascii.eqb a " " && in_range "1" "9" b then [(digit_val b, t)] else [])
  | [a] => if in_range "1" "9" a then [(digit_val a, [])] else []
  | [] => []
  end.

(** [%m] is [1[0-2]|0[1-9]|[1-9]]. *)
Definition match_m (s : list ascii) : list (Z * list ascii) :=
  match s with
  | a :: b :: t =>
      (if Ascii.eqb a "1" && in_range "0" "2" b then [(10 + digit_val b, t)] else []) ++
      (if Ascii.eqb a "0" && in_range "1" "9" b then [(digit_val b, t)] else []) ++
      (if in_range "1" "9" a then [(digit_val a, b :: t)] else [])
  | [a] => if in_range "1" "9" a then [(digit_val a, [])] else []
  | [] => []
  end.

(** [%Y] is [\d\d\d\d]. *)
Definition match_Y (s : list ascii) : list (Z * list ascii) :=
  match s with
  | a :: b :: c :: d :: t =>
      if is_digit a && is_digit b && is_digit c && is_digit d
      then [(1000 * digit_val a + 100 * digit_val b + 10 * digit_val c + digit_val d, t)]
      else []
  | _ => []
  end.

Definition match_slash {A} (x : A * list ascii) : list (A * list ascii) :=
  match snd x with
  | c :: t => if Ascii.eqb c "/" then [(fst x, t)] else []
  | [] => []
  end.

(** All matches of the whole format that consume the whole text. *)
Definition match_format (s : list ascii) : list (Z * Z * Z) :=
  dm ← (d ← match_d s; match_slash d);
  mm ← (m ← match_m (snd dm); match_slash (fst dm, fst m, snd m));
  y ← match_Y (snd mm);
  match snd y with
  | [] => [(fst (fst mm), snd (fst mm), fst y)]
  | _ => []
  end.

Definition is_leap (y : Z) : bool :=
  (Z.eqb (y mod 4) 0 && negb (Z.eqb (y mod 100) 0)) || Z.eqb (y mod 400) 0.

Definition days_in_month (y m : Z) : Z :=
  if Z.eqb m 2 then (if is_leap y then 29 else 28)
  else if Z.eqb m 4 || Z.eqb m 6 || Z.eqb m 9 || Z.eqb m 11 then 30
  else 31.

(** A calendar date that exists: [datetime.date] rejects year 0 and days
    past the end of the month. *)
Definition valid_date (y m d : Z) : bool :=
  Z.leb 1 y && Z.leb 1 m && Z.leb m 12 && Z.leb 1 d && Z.leb d (days_in_month y m).

(** Midnight of the day lies in the range of [datetime64[ns]]:
    1677-09-22 up to 2262-04-11. *)
Definition in_ns_bounds (y m d : Z) : bool :=
  let k := 10000 * y + 100 * m + d in
  Z.leb 16770922 k && Z.leb k 22620411.

Definition strptime (s : string) : option cell :=
  match match_format (list_ascii_of_string s) with
  | (d, m, y) :: _ =>
      if valid_date y m d && in_ns_bounds y m d then Some (Date y m d) else None
  | [] => None
  end.

Close Scope Z_scope.

(** Texts that the parser takes for a missing date without looking at the
    format. *)
Definition nat_strings : list string :=
  ["NaT"; "nat"; "NAT"; "nan"; "NaN"; "NAN"].

Definition is_nat_string (s : string) : bool :=
  String.eqb s EmptyString || existsb (String.eqb s) nat_strings.

(** One element of [pd.to_datetime(col, format='%d/%m/%Y')]. *)
Definition to_datetime1 (c : cell) : result cell :=
  match c with
  | NaN => Ok NaN
  | Str s => if is_nat_string s then Ok NaN
             else match strptime s with
                  | Some d => Ok d
                  | None => Err ValueError
                  end
  | Num _ => Err ValueError
  | Date y m d => Ok (Date y m d)
  end.

Fixpoint to_datetime (s : Series) : result Series :=
  match s with
  | [] => Ok []
  | c :: t =>
      match to_datetime1 c with
      | Ok d => match to_datetime t with
                | Ok ds => Ok (d :: ds)
                | Err e => Err e
                end
      | Err e => Err e
      end
  end.

(** [.dt.month] of one element. *)
Definition dt_month1 (c : cell) : cell :=
  match c with
  | Date _ m _ => Num (inject_Z m)
  | _ => NaN
  end.

Definition dt_month (s : Series) : Series := map dt_month1 s.

(** Lines 21-22: the frame after the date is parsed and the month derived. *)
Definition load (raw : DataFrame) : result DataFrame :=
  col ← getitem raw "beginDate";
  parsed ← to_datetime col;
  d1 ← setitem raw "beginDate" parsed;
  col1 ← getitem d1 "beginDate";
  setitem d1 "month" (dt_month col1).

(** ** Filter engine *)

Record Selection := mkSel {
  selected_countries : list cell;
  selected_products : list cell;
  selected_months : list cell;
  selected_varieties : list cell
}.

(** [Series.unique()]: the distinct values in order of first appearance. *)
Fixpoint unique_acc (seen : list cell) (s : Series) : list cell :=
  match s with
  | [] => []
  | c :: t => if existsb (cell_eqb c) seen then unique_acc seen t
              else c :: unique_acc (seen ++ [c]) t
  end.

Definition unique (s : Series) : list cell := unique_acc [] s.


Definition isin1 (values : list cell) (c : cell) : bool := existsb (cell_eqb c) values.

Definition isin (s : Series) (values : list cell) : list bool := map (isin1 values) s.

(** [a & b] on boolean Series over the same index. *)
Definition mask_and (a b : list bool) : list bool := zip_with andb a b.

(** Rows of [l] at the positions where [mask] is true. *)
Fixpoint take_mask {A} (l : list A) (mask : list bool) : list A :=
  match l, mask with
  | x :: l', b :: mask' => if b then x :: take_mask l' mask' else take_mask l' mask'
  | _, _ => []
  end.

(** [d[mask]] for a boolean Series: a new frame with the same columns. *)
Definition getitem_bool (d : DataFrame) (mask : list bool) : result DataFrame :=
  if Nat.eqb (length mask) (length (rows d))
  then Ok (mkDF (columns d) (take_mask (rows d) mask))
  else Err ValueError.

(** Lines 53-58. *)
Definition filter_mask (df : DataFrame) (sel : Selection) : result (list bool) :=
  c ← getitem df "memberStateCode";
  p ← getitem df "product";
  v ← getitem df "variety_name";
  m ← getitem df "month";
  mret (mask_and (mask_and (mask_and (isin c (selected_countries sel))
                                     (isin p (selected_products sel)))
                           (isin v (selected_varieties sel)))
                 (isin m (selected_months sel))).

Definition filtered_df (df : DataFrame) (sel : Selection) : result DataFrame :=
  mask ← filter_mask df sel;
  getitem_bool df mask.

(** The membership test of one row, as the four masks combine it. *)
Definition row_selected (df : DataFrame) (sel : Selection) (r : Row) : bool :=
  isin1 (selected_countries sel) (field df "memberStateCode" r) &&
  isin1 (selected_products sel) (field df "product" r) &&
  isin1 (selected_varieties sel) (field df "variety_name" r) &&
  isin1 (selected_months sel) (field df "month" r).

Definition has_column (d : DataFrame) (name : string) : Prop := In name (columns d).

Definition filter_columns (d : DataFrame) : Prop :=
  has_column d "memberStateCode" /\ has_column d "product" /\
  has_column d "variety_name" /\ has_column d "month".

(** ** Example data: the three rows of the scenario *)

Definition ex_raw : DataFrame :=
  mkDF ["Unnamed: 0"; "memberStateCode"; "product"; "variety_name"; "price"; "beginDate"]
       [ mkRow 0 [Num 0; Str "FR"; Str "Apple"; Str "Gala"; Num (120 # 100); Str "05/01/2024"];
         mkRow 1 [Num 1; Str "FR"; Str "Apple"; Str "Gala"; Num (140 # 100); Str "15/01/2024"];
         mkRow 2 [Num 2; Str "NL"; Str "Pear"; Str "Conference"; Num (90 # 100); Str "10/01/2024"] ].

Definition ex_df : DataFrame :=
  mkDF ["Unnamed: 0"; "memberStateCode"; "product"; "variety_name"; "price"; "beginDate"; "month"]
       [ mkRow 0 [Num 0; Str "FR"; Str "Apple"; Str "Gala"; Num (120 # 100); Date 2024 1 5; Num 1];
         mkRow 1 [Num 1; Str "FR"; Str "Apple"; Str "Gala"; Num (140 # 100); Date 2024 1 15; Num 1];
         mkRow 2 [Num 2; Str "NL"; Str "Pear"; Str "Conference"; Num (90 # 100); Date 2024 1 10; Num 1] ].

Definition ex_sel_FR : Selection :=
  mkSel [Str "FR"] [Str "Apple"; Str "Pear"] [Num 1] [Str "Gala"; Str "Conference"].

Definition some_selection_empty (sel : Selection) : Prop :=
  selected_countries sel = [] \/ selected_products sel = [] \/
  selected_varieties sel = [] \/ selected_months sel = [].

Definition ex_sel_no_month : Selection :=
  mkSel [Str "FR"; Str "NL"] [Str "Apple"; Str "Pear"] [] [Str "Gala"; Str "Conference"].

(** ** Loader: which date cells are accepted *)







Definition ex_raw_bad_date : DataFrame :=
  mkDF ["memberStateCode"; "product"; "variety_name"; "price"; "beginDate"]
       [ mkRow 0 [Str "FR"; Str "Apple"; Str "Gala"; Num (120 # 100); Str "05/01/2024"];
         mkRow 1 [Str "NL"; Str "Pear"; Str "Conference"; Num (90 # 100); Str "2024-01-10"] ].



(** The row of the loaded frame built from source row [r] and its parsed
    date [d]. *)
Definition load_row (raw : DataFrame) (i : nat) (r : Row) (d : cell) : Row :=
  match index_of "month" (columns raw) with
  | Some j => set_cell j (set_cell i r d) (dt_month1 d)
  | None => add_cell (set_cell i r d) (dt_month1 d)
  end.

Definition load_columns (raw : DataFrame) : list string :=
  match index_of "month" (columns raw) with
  | Some _ => columns raw
  | None => (columns raw ++ ["month"])%list
  end.


(** ** Aggregator *)

Open Scope Q_scope.

Definition is_num (c : cell) : bool :=
  match c with Num _ => true | _ => false end.

Definition is_nan (c : cell) : bool :=
  match c with NaN => true | _ => false end.

(** A column of floats holds numbers and missing values. *)
Definition numeric (s : Series) : bool :=
  forallb (fun c => is_num c || is_nan c) s.

(** Running sum and count of the numbers of a Series; missing values are
    skipped ([skipna=True]). *)
Definition add_price (acc : Q * nat) (c : cell) : Q * nat :=
  match c with
  | Num q => (fst acc + q, S (snd acc))
  | _ => acc
  end.

Definition quotient (acc : Q * nat) : cell :=
  match snd acc with
  | O => NaN
  | S _ => Num (fst acc / inject_Z (Z.of_nat (snd acc)))
  end.

Definition mean_cells (s : Series) : cell := quotient (fold_left add_price s (0, O)).

(** [Series.mean()]. *)
Definition series_mean (s : Series) : result cell :=
  if numeric s then Ok (mean_cells s) else Err TypeError.

(** Round half to even at the integers. *)
Definition round_half_even (q : Q) : Z :=
  let f := Qfloor q in
  match Qcompare (q - inject_Z f) (1 # 2) with
  | Lt => f
  | Gt => (f + 1)%Z
  | Eq => if Z.even f then f else (f + 1)%Z
  end.

(** [round(x, 2)]: a missing value stays missing. *)
Definition round2 (c : cell) : cell :=
  match c with
  | Num q => Num (inject_Z (round_half_even (q * 100)) / 100)
  | _ => c
  end.

(** [Series.nunique()]: the number of distinct values that are not missing. *)
Definition nunique (s : Series) : nat :=
  length (List.filter (fun c => negb (is_nan c)) (unique s)).

(** Lines 64-68: the three values handed to [st.metric]. *)
Record Summary := mkSummary {
  total_records : nat;
  average_price : cell;
  unique_varieties : nat
}.

Definition summary (fv : DataFrame) : result Summary :=
  prices ← getitem fv "price";
  avg ← series_mean prices;
  vs ← getitem fv "variety_name";
  mret (mkSummary (length (rows fv)) (round2 avg) (nunique vs)).

(** Group keys: one cell per grouping column. *)
Definition Key := list cell.

Fixpoint key_eqb (a b : Key) : bool :=
  match a, b with
  | [], [] => true
  | x :: a', y :: b' => cell_eqb x y && key_eqb a' b'
  | _, _ => false
  end.

(** The order in which sorted group keys come out: missing values, then
    numbers by value, then texts by code point, then dates. *)
Definition cell_rank (c : cell) : nat :=
  match c with NaN => 0%nat | Num _ => 1%nat | Str _ => 2%nat | Date _ _ _ => 3%nat end.

Definition cell_leb (a b : cell) : bool :=
  match a, b with
  | Str s, Str t => String.leb s t
  | Num p, Num q => Qle_bool p q
  | Date y m d, Date y' m' d' =>
      if Z.eqb y y' then (if Z.eqb m m' then Z.leb d d' else Z.leb m m') else Z.leb y y'
  | _, _ => Nat.leb (cell_rank a) (cell_rank b)
  end.

Fixpoint key_leb (a b : Key) : bool :=
  match a, b with
  | [], _ => true
  | _ :: _, [] => false
  | x :: a', y :: b' => if cell_eqb x y then key_leb a' b' else cell_leb x y
  end.

(** Sorted insertion that keeps one copy of each key. *)
Fixpoint insert_key (k : Key) (l : list Key) : list Key :=
  match l with
  | [] => [k]
  | y :: l' => if key_eqb k y then l
               else if key_leb k y then k :: l
               else y :: insert_key k l'
  end.

Definition sort_keys (l : list Key) : list Key := fold_right insert_key [] l.

Definition key_of (ixs : list nat) (r : Row) : Key := map (fun i => cell_at i r) ixs.

(** Positions of the named columns, [KeyError] at the first that is absent. *)
Fixpoint indices (cols : list string) (names : list string) : result (list nat) :=
  match names with
  | [] => Ok []
  | n :: ns =>
      match index_of n cols with
      | Some i => match indices cols ns with
                  | Ok ixs => Ok (i :: ixs)
                  | Err e => Err e
                  end
      | None => Err (KeyError n)
      end
  end.

(** One entry of a grouped Series: the group key and the aggregate. *)
Definition Entry := (Key * cell)%type.

(** The rows that take part in grouping: those with no missing key
    ([dropna=True]). *)
Definition live_rows (ixs : list nat) (rs : list Row) : list Row :=
  List.filter (fun r => negb (existsb is_nan (key_of ixs r))) rs.

Definition group_rows (ixs : list nat) (k : Key) (rs : list Row) : list Row :=
  List.filter (fun r => key_eqb (key_of ixs r) k) rs.

Definition group_means (ixs : list nat) (iv : nat) (rs : list Row) : list Entry :=
  let live := live_rows ixs rs in
  map (fun k => (k, mean_cells (map (cell_at iv) (group_rows ixs k live))))
      (sort_keys (map (key_of ixs) live)).

(** [d.groupby(keys)[val].mean()]: one entry per distinct key, in sorted key
    order. *)
Definition groupby_mean (d : DataFrame) (keys : list string) (val : string)
  : result (list Entry) :=
  ixs ← indices (columns d) keys;
  vals ← getitem d val;
  match index_of val (columns d) with
  | Some iv => if numeric vals then Ok (group_means ixs iv (rows d)) else Err TypeError
  | None => Err (KeyError val)
  end.

(** A two-dimensional table: row labels, column labels, one row of cells
    per row label. *)
Record Table := mkTable {
  t_index : list cell;
  t_columns : list cell;
  t_values : list (list cell)
}.

Definition lookup_key (k : Key) (s : list Entry) : cell :=
  match find (fun e => key_eqb (fst e) k) s with
  | Some e => snd e
  | None => NaN
  end.

Definition level (n : nat) (e : Entry) : Key := [nth n (fst e) NaN].

Definition labels (n : nat) (s : list Entry) : list cell :=
  map (fun k => nth O k NaN) (sort_keys (map (level n) s)).

(** [.unstack()] of a Series keyed by pairs: the second key level becomes
    the columns, combinations without an entry are missing. *)
Definition unstack (s : list Entry) : Table :=
  let idx := labels O s in
  let cols := labels 1%nat s in
  mkTable idx cols (map (fun c => map (fun p => lookup_key [c; p] s) cols) idx).



(** Line 72. *)
Definition avg_prices (fv : DataFrame) : result Table :=
  s ← groupby_mean fv ["memberStateCode"; "product"] "price";
  mret (unstack s).

(** Line 87, before the index is reset. *)
Definition trend_df (fv : DataFrame) : result (list Entry) :=
  groupby_mean fv ["beginDate"; "memberStateCode"; "product"] "price".

(** Line 107. *)
Definition price_comparison (fv : DataFrame) : result Table :=
  s ← groupby_mean fv ["memberStateCode"; "variety_name"] "price";
  mret (unstack s).





(** ** Rankings *)

Definition value (e : Entry) : Q :=
  match snd e with Num q => q | _ => 0 end.

Definition has_value (e : Entry) : bool := is_num (snd e).

(** Insertion before the first entry that the new one may precede; entries
    that compare equal keep the order in which they are inserted. *)
Fixpoint insert_by (ord : Entry -> Entry -> bool) (e : Entry) (l : list Entry) : list Entry :=
  match l with
  | [] => [e]
  | y :: l' => if ord e y then e :: l else y :: insert_by ord e l'
  end.

Definition stable_sort (ord : Entry -> Entry -> bool) (l : list Entry) : list Entry :=
  fold_right (insert_by ord) [] l.

Definition desc (a b : Entry) : bool := Qle_bool (value b) (value a).
Definition asc (a b : Entry) : bool := Qle_bool (value a) (value b).

(** [Series.nlargest(n)] and [Series.nsmallest(n)] with [keep='first']:
    the entries with a value in order, ties in the order of the Series,
    then the entries without a value, cut to [n]. *)
Definition nselect (ord : Entry -> Entry -> bool) (n : nat) (s : list Entry) : list Entry :=
  firstn n (stable_sort ord (List.filter has_value s) ++
            List.filter (fun e => negb (has_value e)) s).

Definition nlargest := nselect desc.
Definition nsmallest := nselect asc.

(** Lines 140 and 145. *)
Definition variety_means (fv : DataFrame) : result (list Entry) :=
  groupby_mean fv ["variety_name"] "price".

Definition top_5_expensive (fv : DataFrame) : result (list Entry) :=
  s ← variety_means fv; mret (nlargest 5%nat s).

Definition top_5_cheapest (fv : DataFrame) : result (list Entry) :=
  s ← variety_means fv; mret (nsmallest 5%nat s).

Close Scope Q_scope.

Definition aggregate_columns (d : DataFrame) : Prop :=
  has_column d "memberStateCode" /\ has_column d "product" /\
  has_column d "variety_name" /\ has_column d "price" /\ has_column d "beginDate".



Definition price_columns (d : DataFrame) : Prop :=
  has_column d "memberStateCode" /\ has_column d "product" /\ has_column d "price".

(** The entries that have a value, and those that have none. *)
Definition valued (s : list Entry) : list Entry := List.filter has_value s.





(** Ten varieties at ten prices. *)
Definition ex_ten : DataFrame :=
  mkDF ["memberStateCode"; "product"; "variety_name"; "price"; "beginDate"; "month"]
       (map (fun nv => mkRow (fst nv)
                        [Str "FR"; Str "Apple"; Str (snd nv);
                         Num (inject_Z (Z.of_nat (fst nv)) + 1); Date 2024 1 5; Num 1])
            [(0, "Ariane"); (1, "Belchard"); (2, "Boskoop"); (3, "Braeburn"); (4, "Elstar");
             (5, "Fuji"); (6, "Gala"); (7, "Golden"); (8, "Granny"); (9, "Jonagold")]%nat).


(** ** Exporter: the placeholder columns *)

Definition lower (c : ascii) : ascii :=
  let n := nat_of_ascii c in
  if (65 <=? n)%nat && (n <=? 90)%nat then ascii_of_nat (n + 32) else c.

Fixpoint lowercase (s : string) : string :=
  match s with
  | EmptyString => EmptyString
  | String c t => String (lower c) (lowercase t)
  end.

Fixpoint contains (pat s : string) : bool :=
  String.prefix pat s ||
  match s with
  | EmptyString => false
  | String _ t => contains pat t
  end.

(** One element of [columns.str.contains('unnamed', case=False)]. *)
Definition contains_unnamed (name : string) : bool :=
  contains "unnamed" (lowercase name).

(** [cols[mask]] for a boolean array: the mask must be as long as the
    index. *)
Definition index_getitem_bool (cols : list string) (mask : list bool) : result (list string) :=
  if Nat.eqb (length mask) (length cols) then Ok (take_mask cols mask)
  else Err IndexError.

(** [d.drop(labels, axis=1)]: every label must name a column; every column
    with one of the labels goes. *)
Definition drop_columns (d : DataFrame) (labels : list string) : result DataFrame :=
  match find (fun l => negb (existsb (String.eqb l) (columns d))) labels with
  | Some l => Err (KeyError l)
  | None =>
      let keep := map (fun c => negb (existsb (String.eqb c) labels)) (columns d) in
      Ok (mkDF (take_mask (columns d) keep)
               (map (fun r => mkRow (label r) (take_mask (cells r) keep)) (rows d)))
  end.

(** Line 148 as a function of the two frames: the mask comes from the
    columns of [df], the labels from the columns of [fv]. *)
Definition drop_unnamed (df fv : DataFrame) : result DataFrame :=
  labels ← index_getitem_bool (columns fv) (map contains_unnamed (columns df));
  drop_columns fv labels.

(** The columns that are no placeholders, and a row cut down to them. *)
Definition kept_columns (cols : list string) : list string :=
  List.filter (fun c => negb (contains_unnamed c)) cols.

Definition kept_cells (cols : list string) (r : Row) : Row :=
  mkRow (label r) (take_mask (cells r) (map (fun c => negb (contains_unnamed c)) cols)).

(** ** Exporter: [to_csv(index=False)] *)

Open Scope Z_scope.

Definition digit_char (d : Z) : ascii := ascii_of_nat (Z.to_nat (48 + d)).

(** The low [k] decimal digits of [n], most significant first. *)
Fixpoint fixed_digits (k : nat) (n : Z) : list ascii :=
  match k with
  | O => []
  | S k' => fixed_digits k' (n / 10) ++ [digit_char (n mod 10)]
  end.

Fixpoint count_digits (fuel : nat) (n : Z) : nat :=
  match fuel with
  | O => 1%nat
  | S f => if n <? 10 then 1%nat else S (count_digits f (n / 10))
  end.

(** The decimal digits of [n >= 0], without leading zeros. *)
Definition digits (n : Z) : list ascii :=
  fixed_digits (count_digits (S (Z.to_nat (Z.log2 n))) n) n.

(** The least [k' >= k] within [fuel] steps for which [num / den] has [k']
    digits after the point, or the last one tried. *)
Fixpoint scale (fuel : nat) (num den : Z) (k : nat) : nat :=
  if (num * 10 ^ Z.of_nat k) mod den =? 0 then k
  else match fuel with
       | O => k
       | S f => scale f num den (S k)
       end.

(** The digits after the point of a number; a denominator of [n] binary
    digits needs fewer than [n] of them when the expansion ends at all. *)
Definition number_scale (q : Q) : nat :=
  scale (Pos.size_nat (Qden q)) (Z.abs (Qnum q)) (Zpos (Qden q)) 0.

(** The number of the digits written, point removed. *)
Definition number_mantissa (q : Q) : Z :=
  (Z.abs (Qnum q) * 10 ^ Z.of_nat (number_scale q)) / Zpos (Qden q).

(** The text of a number: sign, integer part and, unless the value is
    integral, a point and the digits after it. *)
Definition format_number (q : Q) : list ascii :=
  let k := number_scale q in
  let m := number_mantissa q in
  (if Qnum q <? 0 then ["-"%char] else []) ++
  digits (m / 10 ^ Z.of_nat k) ++
  match k with
  | O => []
  | S _ => "."%char :: fixed_digits k (m mod 10 ^ Z.of_nat k)
  end.


Definition format_date (y m d : Z) : list ascii :=
  fixed_digits 4 y ++ "-"%char :: fixed_digits 2 m ++ "-"%char :: fixed_digits 2 d.

Close Scope Z_scope.

(** The text of a cell; a missing value is the empty text ([na_rep='']). *)
Definition cell_text (c : cell) : list ascii :=
  match c with
  | NaN => []
  | Str s => list_ascii_of_string s
  | Num q => format_number q
  | Date y m d => format_date y m d
  end.

Definition quote : ascii := "034"%char.
Definition comma : ascii := ","%char.
Definition LF : ascii := "010"%char.
Definition CR : ascii := "013"%char.

(** A field is quoted when it holds the delimiter, the quote character or a
    line break ([QUOTE_MINIMAL]); quotes inside are doubled. *)
Definition special (c : ascii) : bool :=
  Ascii.eqb c comma || Ascii.eqb c quote || Ascii.eqb c LF || Ascii.eqb c CR.

Fixpoint escape (f : list ascii) : list ascii :=
  match f with
  | [] => []
  | c :: t => if Ascii.eqb c quote then quote :: quote :: escape t else c :: escape t
  end.

Definition write_field (f : list ascii) : list ascii :=
  if existsb special f then quote :: escape f ++ [quote] else f.

Fixpoint join (fs : list (list ascii)) : list ascii :=
  match fs with
  | [] => []
  | [f] => f
  | f :: fs' => f ++ comma :: join fs'
  end.

(** One line of the file; a record of one empty field is written as a pair
    of quotes. *)
Definition write_record (fs : list (list ascii)) : list ascii :=
  match fs with
  | [[]] => [quote; quote; LF]
  | _ => join (map write_field fs) ++ [LF]
  end.

Definition header (d : DataFrame) : list ascii :=
  write_record (map list_ascii_of_string (columns d)).

(** [d.to_csv(index=False).encode('utf-8')]: the header line, then one line
    per row. *)
Definition to_csv (d : DataFrame) : list ascii :=
  header d ++ flat_map (fun r => write_record (map cell_text (cells r))) (rows d).

(** ** The script as a program over a store of frames

    A variable of the script holds a reference to a frame object; item
    assignment and [inplace=True] update the object behind the reference,
    boolean indexing allocates a new object. A statement that raises leaves
    the store as it was when it raised. *)

Record store := mkStore { heap : gmap nat DataFrame; next : nat }.

Definition M (A : Type) : Type := store -> result A * store.

Definition ret {A} (a : A) : M A := fun st => (Ok a, st).

Definition bind {A B} (m : M A) (f : A -> M B) : M B :=
  fun st => match m st with
            | (Ok a, st') => f a st'
            | (Err e, st') => (Err e, st')
            end.

Notation "'let*' x ':=' m 'in' k" := (bind m (fun x => k))
  (at level 10, x name, m at level 100, k at level 200).

Definition lift {A} (r : result A) : M A := fun st => (r, st).

(** A new object. *)
Definition alloc (d : DataFrame) : M nat :=
  fun st => (Ok (next st), mkStore (<[next st := d]> (heap st)) (S (next st))).

Definition read (r : nat) : M DataFrame :=
  fun st => match heap st !! r with
            | Some d => (Ok d, st)
            | None => (Err NameError, st)
            end.

(** Update of the object behind [r]. *)
Definition write (r : nat) (d : DataFrame) : M unit :=
  fun st => (Ok tt, mkStore (<[r := d]> (heap st)) (next st)).

(** Lines 18-22: [df] is bound to the loaded frame, then the frame is
    changed in place. *)
Definition load_step (raw : DataFrame) : M nat :=
  let* df := alloc raw in
  let* d := read df in
  let* d' := lift (load d) in
  let* _ := write df d' in
  ret df.

(** Lines 53-58: [filtered_df] is bound to a new frame. *)
Definition filter_step (df : nat) (sel : Selection) : M nat :=
  let* d := read df in
  let* fv := lift (filtered_df d sel) in
  alloc fv.

Record Aggregates := mkAggregates {
  agg_summary : Summary;
  agg_avg_prices : Table;
  agg_trend : list Entry;
  agg_price_comparison : Table;
  agg_top_5_expensive : list Entry;
  agg_top_5_cheapest : list Entry
}.

Definition aggregates (fv : DataFrame) : result Aggregates :=
  s ← summary fv;
  a ← avg_prices fv;
  t ← trend_df fv;
  c ← price_comparison fv;
  e ← top_5_expensive fv;
  l ← top_5_cheapest fv;
  mret (mkAggregates s a t c e l).

(** Lines 60-146. *)
Definition aggregate_step (filtered : nat) : M Aggregates :=
  let* fv := read filtered in
  lift (aggregates fv).

(** Line 148: the frame behind [filtered_df] is changed in place. *)
Definition drop_step (df filtered : nat) : M unit :=
  let* d := read df in
  let* fv := read filtered in
  let* out := lift (drop_unnamed d fv) in
  write filtered out.

(** Line 156. *)
Definition export_step (filtered : nat) : M (list ascii) :=
  let* fv := read filtered in
  ret (to_csv fv).

(** Everything after the load, for the Dataset behind [df]. *)
Definition after_load (df : nat) (sel : Selection) : M (Aggregates * list ascii) :=
  let* filtered := filter_step df sel in
  let* a := aggregate_step filtered in
  let* _ := drop_step df filtered in
  let* csv := export_step filtered in
  ret (a, csv).

Definition dashboard (raw : DataFrame) (sel : Selection) : M (Aggregates * list ascii) :=
  let* df := load_step raw in
  after_load df sel.

Definition empty_store : store := mkStore ∅ 0.

(** The store after the example source is loaded. *)
Definition ex_store : store := snd (load_step ex_raw empty_store).

(** ** Reading the export back

    The reader the round trip is stated against: the tokenizer of a
    comma-separated file with the dialect of the writer (quoted fields,
    doubled quotes, blank lines skipped, LF, CR or CR LF ending a line),
    then one typed conversion per column. *)

















Open Scope Z_scope.

Fixpoint digits_value (acc : Z) (f : list ascii) : option Z :=
  match f with
  | [] => Some acc
  | c :: t => if is_digit c then digits_value (10 * acc + digit_val c) t else None
  end.






Close Scope Z_scope.












From Stdlib Require Import Lqa.

(** ** Further definitions: selections, missing columns *)



(** Every value selected by [sel] is selected by [sel']. *)
Definition selection_included (sel sel' : Selection) : Prop :=
  (forall c, isin1 (selected_countries sel) c = true ->
             isin1 (selected_countries sel') c = true) /\
  (forall c, isin1 (selected_products sel) c = true ->
             isin1 (selected_products sel') c = true) /\
  (forall c, isin1 (selected_varieties sel) c = true ->
             isin1 (selected_varieties sel') c = true) /\
  (forall c, isin1 (selected_months sel) c = true ->
             isin1 (selected_months sel') c = true).


Definition ex_sel_all : Selection :=
  mkSel [Str "FR"; Str "NL"] [Str "Apple"; Str "Pear"] [Num 1]
        [Str "Gala"; Str "Conference"].

(** ** Further definitions: dates as texts *)

(** A day or month number as text, with a leading zero when [pad] is set or
    with the digits it needs. *)
Definition day_text (pad : bool) (n : Z) : list ascii :=
  if pad || (10 <=? n)%Z then fixed_digits 2 n else fixed_digits 1 n.

(** A date written day/month/year. *)
Definition dmy_text (pad_d pad_m : bool) (y m d : Z) : string :=
  string_of_list_ascii
    (day_text pad_d d ++ "/"%char :: day_text pad_m m ++ "/"%char :: fixed_digits 4 y).

(** ** Further definitions: price ranges *)


(** ** Further definitions: the order of group keys *)

(** [a] comes strictly before [b] among sorted keys. *)
Definition key_lt (a b : Key) : Prop := key_leb a b = true /\ key_eqb a b = false.


(** ** Further definitions: the trend lines (lines 85-94) *)

(** [a == b] as a comparison of values in a mask: a missing value equals
    nothing, not even a missing value. *)
Definition cell_equal (a b : cell) : bool := negb (is_nan a) && cell_eqb a b.

(** The rows of the trend table for one country and one product. *)
Definition trend_subset (trend : list Entry) (country product : cell) : list Entry :=
  List.filter (fun e => cell_equal (nth 1 (fst e) NaN) country &&
                        cell_equal (nth 2 (fst e) NaN) product) trend.

(** The points handed to [ax2.plot]: dates and mean prices. *)
Definition trend_line (trend : list Entry) (country product : cell) : list (cell * cell) :=
  map (fun e => (nth 0 (fst e) NaN, snd e)) (trend_subset trend country product).

(** One line per selected country and selected product, countries in the
    outer loop; without a date column only a warning is shown. *)
Definition trend_lines (fv : DataFrame) (sel : Selection)
  : result (option (list (cell * cell * list (cell * cell)))) :=
  if existsb (String.eqb "beginDate") (columns fv) then
    trend ← trend_df fv;
    mret (Some (flat_map (fun c => map (fun p => (c, p, trend_line trend c p))
                                       (selected_products sel))
                         (selected_countries sel)))
  else mret None.

(** [a] is strictly before [b] in the order of sorted values. *)
Definition cell_lt (a b : cell) : Prop := cell_leb a b = true /\ cell_eqb a b = false.

Definition ex_ties_nodate : DataFrame :=
  mkDF ["memberStateCode"; "product"; "variety_name"; "price"; "month"]
       [ mkRow 0 [Str "FR"; Str "Apple"; Str "Gala"; Num (120 # 100); Num 1] ].

(** ** Further definitions: the table by country and variety (line 107) *)




(** A table with one row of cells per row label and one cell per column
    label in each row, both label lists strictly ascending. *)
Definition table_shape (t : Table) : Prop :=
  length (t_values t) = length (t_index t) /\
  Forall (fun row => length row = length (t_columns t)) (t_values t) /\
  StronglySorted cell_lt (t_index t) /\
  StronglySorted cell_lt (t_columns t).


(** ** Further definitions: sources on which a run stops *)


(** * Properties *)

Open Scope list_scope.

(** The named columns are among the columns of a concrete frame. *)
Ltac columns_present :=
  unfold filter_columns, aggregate_columns, price_columns, has_column; simpl; tauto.

Example load_ex_raw : load ex_raw = Ok ex_df.
Proof. reflexivity. Qed.

Example filtered_ex :
  filtered_df ex_df ex_sel_FR = Ok (mkDF (columns ex_df) (firstn 2 (rows ex_df))).
Proof. reflexivity. Qed.

(** ** Facts about column access and masks *)

Lemma index_of_In name cols : In name cols -> exists i, index_of name cols = Some i.
Proof.
  induction cols as [|c cs IH]; simpl; [tauto|].
  intros [->|Hin].
  - rewrite String.eqb_refl. eauto.
  - destruct (String.eqb c name); [eauto|].
    destruct (IH Hin) as [i ->]. simpl. eauto.
Qed.

Lemma index_of_Some_In name cols i : index_of name cols = Some i -> In name cols.
Proof.
  revert i. induction cols as [|c cs IH]; simpl; [discriminate|].
  intros i. destruct (String.eqb_spec c name) as [->|_]; [auto|].
  destruct (index_of name cs); simpl; [eauto|discriminate].
Qed.

Lemma getitem_field d name :
  has_column d name -> getitem d name = Ok (map (field d name) (rows d)).
Proof.
  intros Hc. unfold getitem, field.
  destruct (index_of_In _ _ Hc) as [i ->]. reflexivity.
Qed.

Lemma mask_and_map {A} (f g : A -> bool) (l : list A) :
  mask_and (map f l) (map g l) = map (fun x => f x && g x) l.
Proof. unfold mask_and. induction l as [|x l IH]; simpl; [reflexivity|]. now f_equal. Qed.

Lemma take_mask_map {A} (f : A -> bool) (l : list A) :
  take_mask l (map f l) = List.filter f l.
Proof. induction l as [|x l IH]; simpl; [reflexivity|]. rewrite IH. reflexivity. Qed.

Lemma filter_mask_rows df sel :
  filter_columns df ->
  filter_mask df sel = Ok (map (row_selected df sel) (rows df)).
Proof.
  intros (Hc & Hp & Hv & Hm). unfold filter_mask.
  rewrite (getitem_field _ _ Hc), (getitem_field _ _ Hp),
          (getitem_field _ _ Hv), (getitem_field _ _ Hm).
  simpl. unfold isin. rewrite !map_map, !mask_and_map. reflexivity.
Qed.

(** The filtered frame is the frame of the rows that pass the row test. *)
Lemma filtered_df_filter df sel :
  filter_columns df ->
  filtered_df df sel = Ok (mkDF (columns df) (List.filter (row_selected df sel) (rows df))).
Proof.
  intros Hc. unfold filtered_df. rewrite (filter_mask_rows _ _ Hc). simpl.
  unfold getitem_bool. rewrite length_map, Nat.eqb_refl, take_mask_map. reflexivity.
Qed.

Lemma filtered_df_KeyError df sel fv :
  filtered_df df sel = Ok fv -> filter_columns df.
Proof.
  unfold filtered_df, filter_mask, getitem, filter_columns, has_column.
  destruct (index_of "memberStateCode" (columns df)) as [i1|] eqn:E1; [|discriminate].
  destruct (index_of "product" (columns df)) as [i2|] eqn:E2; [|discriminate].
  destruct (index_of "variety_name" (columns df)) as [i3|] eqn:E3; [|discriminate].
  destruct (index_of "month" (columns df)) as [i4|] eqn:E4; [|discriminate].
  intros _. repeat split; eapply index_of_Some_In; eassumption.
Qed.


Lemma cell_eqb_refl c : cell_eqb c c = true.
Proof.
  destruct c; simpl; auto.
  - apply String.eqb_refl.
  - apply Qeq_bool_iff. reflexivity.
  - now rewrite !Z.eqb_refl.
Qed.




Lemma List_filter_none {A} (f : A -> bool) (l : list A) :
  (forall x, In x l -> f x = false) -> List.filter f l = [].
Proof.
  induction l as [|x l IH]; simpl; [reflexivity|]. intros H.
  rewrite (H x (or_introl eq_refl)), IH; auto.
Qed.

(** ** The filter engine: membership, identity, empty selections *)






(** C7: when one of the four selections is empty, the Filtered View has no
    rows. *)
Theorem filtered_df_empty_selection (df : DataFrame) (sel : Selection) :
  filter_columns df ->
  some_selection_empty sel ->
  exists fv, filtered_df df sel = Ok fv /\ rows fv = [].
Proof.
  intros Hc He. eexists. split; [apply filtered_df_filter, Hc|]. simpl.
  apply List_filter_none. intros r _. unfold row_selected, isin1.
  destruct He as [E|[E|[E|E]]]; rewrite E; simpl;
    rewrite ?andb_false_r; reflexivity.
Qed.


Lemma filtered_df_empty_selection_witness :
  filter_columns ex_df /\ some_selection_empty ex_sel_no_month /\
  exists fv, filtered_df ex_df ex_sel_no_month = Ok fv /\ rows fv = [].
Proof.
  assert (H : filter_columns ex_df) by columns_present.
  assert (He : some_selection_empty ex_sel_no_month).
  { unfold some_selection_empty. simpl. tauto. }
  split; [exact H|]. split; [exact He|].
  exact (filtered_df_empty_selection ex_df ex_sel_no_month H He).
Defined.

(** ** The loader *)

Example load_ex_raw_bad_date : load ex_raw_bad_date = Err ValueError.
Proof. reflexivity. Qed.







Lemma to_datetime_length s ds : to_datetime s = Ok ds -> length ds = length s.
Proof.
  revert ds. induction s as [|x s IH]; simpl; intros ds.
  - now intros [= <-].
  - destruct (to_datetime1 x); [|discriminate].
    destruct (to_datetime s); [|discriminate].
    intros [= <-]. simpl. now rewrite (IH _ eq_refl).
Qed.

Lemma index_of_lt name cols i : index_of name cols = Some i -> (i < length cols)%nat.
Proof.
  revert i. induction cols as [|c cs IH]; simpl; [discriminate|]. intros i.
  destruct (String.eqb c name); [intros [= <-]; lia|].
  destruct (index_of name cs) as [k|]; simpl; [|discriminate].
  intros [= <-]. specialize (IH k eq_refl). lia.
Qed.

Lemma index_of_inj n1 n2 cols i :
  index_of n1 cols = Some i -> index_of n2 cols = Some i -> n1 = n2.
Proof.
  revert i. induction cols as [|c cs IH]; simpl; [discriminate|]. intros i.
  destruct (String.eqb_spec c n1) as [E1|_], (String.eqb_spec c n2) as [E2|_].
  - congruence.
  - intros [= <-]. destruct (index_of n2 cs); discriminate.
  - intros H [= <-]. destruct (index_of n1 cs); discriminate.
  - destruct (index_of n1 cs) as [k1|], (index_of n2 cs) as [k2|]; simpl;
      try discriminate.
    intros [= <-] [= ->]. now apply (IH k1).
Qed.

Lemma index_of_app_l name cols more i :
  index_of name cols = Some i -> index_of name (cols ++ more) = Some i.
Proof.
  revert i. induction cols as [|c cs IH]; simpl; [discriminate|]. intros i.
  destruct (String.eqb c name); [auto|].
  destruct (index_of name cs) as [k|]; simpl; [|discriminate].
  intros [= <-]. now rewrite (IH k eq_refl).
Qed.


Lemma zip_with_zip_with_map {A B C D E} (f : C -> D -> E) (g : A -> B -> C) (h : B -> D)
      (l : list A) (k : list B) :
  zip_with f (zip_with g l k) (map h k) = zip_with (fun a b => f (g a b) (h b)) l k.
Proof.
  revert k. induction l as [|a l IH]; intros [|b k]; simpl; try reflexivity.
  now rewrite IH.
Qed.

Lemma map_zip_with_id {A B C} (p : C -> B) (g : A -> B -> C) (l : list A) (k : list B) :
  length k = length l ->
  Forall (fun a => forall b, p (g a b) = b) l ->
  map p (zip_with g l k) = k.
Proof.
  revert k. induction l as [|a l IH]; intros [|b k]; simpl; try discriminate; auto.
  intros [= Hl] Hf. inversion Hf; subst. f_equal; auto.
Qed.

Lemma cell_at_set_cell i r c :
  (i < length (cells r))%nat -> cell_at i (set_cell i r c) = c.
Proof.
  intros Hi. unfold cell_at, set_cell. simpl.
  rewrite nth_lookup, list_lookup_insert_eq; auto.
Qed.

Lemma cell_at_set_cell_ne i j r c :
  i <> j -> cell_at i (set_cell j r c) = cell_at i r.
Proof.
  intros Hi. unfold cell_at, set_cell. simpl.
  rewrite !nth_lookup, list_lookup_insert_ne; auto.
Qed.

Lemma cell_at_add_cell_old i r c :
  (i < length (cells r))%nat -> cell_at i (add_cell r c) = cell_at i r.
Proof.
  intros Hi. unfold cell_at, add_cell. simpl. now rewrite app_nth1.
Qed.



Lemma load_unfold raw i :
  wf_frame raw -> index_of "beginDate" (columns raw) = Some i ->
  load raw =
  match to_datetime (map (cell_at i) (rows raw)) with
  | Ok parsed => Ok (mkDF (load_columns raw) (zip_with (load_row raw i) (rows raw) parsed))
  | Err e => Err e
  end.
Proof.
  intros Hwf Hi. unfold load, getitem. rewrite Hi. simpl.
  destruct (to_datetime (map (cell_at i) (rows raw))) as [parsed|e] eqn:E; [|reflexivity].
  simpl. pose proof (to_datetime_length _ _ E) as Hlen. rewrite length_map in Hlen.
  unfold setitem at 2. rewrite Hlen, Nat.eqb_refl, Hi. simpl.
  rewrite Hi. rewrite map_zip_with_id; auto.
  2:{ eapply Forall_impl; [exact Hwf|]. simpl. intros r Hr b.
      apply cell_at_set_cell. rewrite Hr. eapply index_of_lt; eauto. }
  unfold setitem. simpl. unfold dt_month.
  rewrite length_map, length_zip_with, Hlen, Nat.min_id, Nat.eqb_refl. simpl.
  unfold load_columns, load_row.
  destruct (index_of "month" (columns raw)); rewrite zip_with_zip_with_map; reflexivity.
Qed.





(** ** Aggregations over an empty Filtered View *)






(** ** Keys and grouping *)

Lemma cell_eqb_sym a b : cell_eqb a b = cell_eqb b a.
Proof.
  destruct a, b; simpl; auto.
  - apply String.eqb_sym.
  - apply eq_true_iff_eq. rewrite !Qeq_bool_iff. split; intros H; now symmetry.
  - now rewrite (Z.eqb_sym y), (Z.eqb_sym m), (Z.eqb_sym d).
Qed.

Lemma cell_eqb_trans a b c :
  cell_eqb a b = true -> cell_eqb b c = true -> cell_eqb a c = true.
Proof.
  destruct a, b, c; simpl; try discriminate; auto.
  - rewrite !String.eqb_eq. congruence.
  - rewrite !Qeq_bool_iff. intros H1 H2. now rewrite H1.
  - rewrite !andb_true_iff, !Z.eqb_eq. intuition congruence.
Qed.

Lemma cell_eqb_NaN c : cell_eqb c NaN = true -> c = NaN.
Proof. destruct c; simpl; congruence. Qed.

Lemma key_eqb_refl k : key_eqb k k = true.
Proof. induction k; simpl; [reflexivity|]. now rewrite cell_eqb_refl. Qed.

Lemma key_eqb_sym a b : key_eqb a b = key_eqb b a.
Proof.
  revert b. induction a as [|x a IH]; intros [|y b]; simpl; auto.
  now rewrite cell_eqb_sym, IH.
Qed.

Lemma key_eqb_trans a b c :
  key_eqb a b = true -> key_eqb b c = true -> key_eqb a c = true.
Proof.
  revert b c. induction a as [|x a IH]; intros [|y b] [|z c]; simpl; try discriminate; auto.
  rewrite !andb_true_iff. intros [H1 H2] [H3 H4].
  split; [eapply cell_eqb_trans|eapply IH]; eauto.
Qed.

(** Keys that are equal select the same things. *)
Lemma key_eqb_congr a b k : key_eqb a b = true -> key_eqb k a = key_eqb k b.
Proof.
  intros H. apply eq_true_iff_eq. split; intros Hk.
  - eapply key_eqb_trans; eauto.
  - eapply key_eqb_trans; eauto. now rewrite key_eqb_sym.
Qed.

Lemma existsb_insert_key k x l :
  existsb (key_eqb k) (insert_key x l) = key_eqb k x || existsb (key_eqb k) l.
Proof.
  induction l as [|y l IH]; simpl; [reflexivity|].
  destruct (key_eqb x y) eqn:E.
  - simpl. rewrite (key_eqb_congr _ _ k E).
    now destruct (key_eqb k y).
  - destruct (key_leb x y); simpl; [reflexivity|].
    rewrite IH. now destruct (key_eqb k x), (key_eqb k y).
Qed.

Lemma existsb_sort_keys k l :
  existsb (key_eqb k) (sort_keys l) = existsb (key_eqb k) l.
Proof.
  induction l as [|x l IH]; simpl; [reflexivity|].
  now rewrite existsb_insert_key, IH.
Qed.

Lemma In_insert_key k x l : In k (insert_key x l) -> k = x \/ In k l.
Proof.
  induction l as [|y l IH]; simpl; [intuition congruence|].
  destruct (key_eqb x y); [simpl; tauto|].
  destruct (key_leb x y); simpl; [intuition congruence|]. intros [H|H]; auto.
  destruct (IH H); auto.
Qed.

Lemma In_sort_keys k l : In k (sort_keys l) -> In k l.
Proof.
  induction l as [|x l IH]; simpl; [tauto|].
  intros H. destruct (In_insert_key _ _ _ H); auto.
Qed.





(** ** The unstacked table *)








(** ** Grouped mean by country and product *)

Lemma filter_filter_andb {A} (f g : A -> bool) (l : list A) :
  List.filter f (List.filter g l) = List.filter (fun x => g x && f x) l.
Proof.
  induction l as [|x l IH]; simpl; [reflexivity|].
  destruct (g x); simpl; [|exact IH]. destruct (f x); now rewrite IH.
Qed.



Section CountryProduct.

Variables (ic ip iv : nat) (c p : cell).






End CountryProduct.



Example avg_prices_ex_df :
  avg_prices ex_df =
  Ok (mkTable [Str "FR"; Str "NL"] [Str "Apple"; Str "Pear"]
              [[Num (26000 # 20000); NaN]; [NaN; Num (90 # 100)]]).
Proof. reflexivity. Qed.



(** ** Stable insertion sort *)

Section StableSort.

Variable ord : Entry -> Entry -> bool.
Hypothesis ord_total : forall a b, ord a b = false -> ord b a = true.
Hypothesis ord_trans : forall a b c, ord a b = true -> ord b c = true -> ord a c = true.
Hypothesis ord_tie : forall a b, ord a b = false -> Qeq_bool (value a) (value b) = false.









End StableSort.







(** ** Rankings *)











Lemma groupby_mean_group_means d keys val s :
  groupby_mean d keys val = Ok s -> exists ixs iv, s = group_means ixs iv (rows d).
Proof.
  unfold groupby_mean. destruct (indices (columns d) keys) as [ixs|]; [|discriminate].
  simpl. destruct (getitem d val) as [vals|]; [|discriminate]. simpl.
  destruct (index_of val (columns d)) as [iv|]; [|discriminate].
  destruct (numeric vals); [|discriminate]. intros [= <-]. eauto.
Qed.





Example variety_means_ex_ten :
  exists means, variety_means ex_ten = Ok means /\ length (valued means) = 10%nat /\
                map fst (nlargest 5 means) =
                [[Str "Jonagold"]; [Str "Granny"]; [Str "Golden"]; [Str "Gala"]; [Str "Fuji"]] /\
                map fst (nsmallest 5 means) =
                [[Str "Ariane"]; [Str "Belchard"]; [Str "Boskoop"]; [Str "Braeburn"];
                 [Str "Elstar"]].
Proof. eexists. split; [reflexivity|]. split; [reflexivity|]. split; reflexivity. Qed.


(** ** The placeholder columns *)

Example contains_unnamed_examples :
  contains_unnamed "Unnamed: 0" = true /\ contains_unnamed "UNNAMED" = true /\
  contains_unnamed "my_unNamed_col" = true /\ contains_unnamed "month" = false /\
  contains_unnamed "unname" = false.
Proof. repeat split. Qed.

Lemma existsb_eqb_In (c : string) (l : list string) :
  existsb (String.eqb c) l = true <-> In c l.
Proof.
  rewrite existsb_exists. split.
  - intros (x & Hx & ->%String.eqb_eq). exact Hx.
  - intros H. exists c. split; [exact H|apply String.eqb_refl].
Qed.

Lemma find_none_all {A} (f : A -> bool) (l : list A) :
  (forall x, In x l -> f x = false) -> find f l = None.
Proof.
  induction l as [|x l IH]; simpl; [reflexivity|]. intros H.
  rewrite (H x (or_introl eq_refl)). auto.
Qed.

(** Dropping the columns picked by the mask of another frame with the same
    columns removes the placeholder columns and nothing else. *)
Lemma drop_unnamed_same_columns df fv :
  columns fv = columns df ->
  drop_unnamed df fv =
  Ok (mkDF (kept_columns (columns fv)) (map (kept_cells (columns fv)) (rows fv))).
Proof.
  intros Hc. unfold drop_unnamed, index_getitem_bool.
  rewrite <- Hc, length_map, Nat.eqb_refl, take_mask_map. simpl.
  unfold drop_columns. rewrite find_none_all.
  2:{ intros l [Hl _]%filter_In. apply negb_false_iff. now apply existsb_eqb_In. }
  assert (Hk : forall c, In c (columns fv) ->
            negb (existsb (String.eqb c) (List.filter contains_unnamed (columns fv))) =
            negb (contains_unnamed c)).
  { intros c Hin. f_equal. apply eq_true_iff_eq.
    rewrite existsb_eqb_In, filter_In. tauto. }
  assert (Hm : map (fun c => negb (existsb (String.eqb c)
                                     (List.filter contains_unnamed (columns fv)))) (columns fv) =
               map (fun c => negb (contains_unnamed c)) (columns fv)).
  { apply map_ext_in. exact Hk. }
  rewrite Hm. unfold kept_columns, kept_cells. now rewrite take_mask_map.
Qed.

(** The Filtered View has the columns of the Dataset, and the drop of
    line 148 succeeds on it. *)
Lemma filtered_columns_of df sel fv :
  filtered_df df sel = Ok fv ->
  columns fv = columns df /\
  drop_unnamed df fv =
  Ok (mkDF (kept_columns (columns fv)) (map (kept_cells (columns fv)) (rows fv))).
Proof.
  intros Hf. pose proof (filtered_df_KeyError _ _ _ Hf) as Hfc.
  rewrite (filtered_df_filter _ _ Hfc) in Hf. injection Hf as <-.
  split; [reflexivity|]. now apply drop_unnamed_same_columns.
Qed.



Example drop_unnamed_ex_df :
  drop_unnamed ex_df ex_df =
  Ok (mkDF ["memberStateCode"; "product"; "variety_name"; "price"; "beginDate"; "month"]
       [ mkRow 0 [Str "FR"; Str "Apple"; Str "Gala"; Num (120 # 100); Date 2024 1 5; Num 1];
         mkRow 1 [Str "FR"; Str "Apple"; Str "Gala"; Num (140 # 100); Date 2024 1 15; Num 1];
         mkRow 2 [Str "NL"; Str "Pear"; Str "Conference"; Num (90 # 100); Date 2024 1 10; Num 1] ]).
Proof. reflexivity. Qed.

(** ** The Dataset object after the load *)

Lemma filter_step_store df sel st :
  (df < next st)%nat ->
  match filter_step df sel st with
  | (Ok filtered, st') =>
      filtered = next st /\ next st' = S (next st) /\
      heap st' !! df = heap st !! df /\
      exists d fv, heap st !! df = Some d /\ filtered_df d sel = Ok fv /\
                   heap st' !! filtered = Some fv
  | (Err _, st') => st' = st
  end.
Proof.
  intros Hlt. unfold filter_step, bind, read, lift, alloc.
  destruct (heap st !! df) as [d|] eqn:Hd; [|reflexivity].
  destruct (filtered_df d sel) as [fv|e] eqn:Hf; [|reflexivity].
  cbn [heap next]. split; [reflexivity|]. split; [reflexivity|].
  split; [rewrite lookup_insert_ne by lia; exact Hd|].
  exists d, fv. repeat split; auto. apply lookup_insert_eq.
Qed.

Lemma aggregate_step_store filtered st : snd (aggregate_step filtered st) = st.
Proof.
  unfold aggregate_step, bind, read, lift.
  destruct (heap st !! filtered); reflexivity.
Qed.

Lemma drop_step_store df filtered st :
  df <> filtered ->
  heap (snd (drop_step df filtered st)) !! df = heap st !! df /\
  next (snd (drop_step df filtered st)) = next st.
Proof.
  intros Hne. unfold drop_step, bind, read, lift, write.
  destruct (heap st !! df) as [d|] eqn:Hd; [|split; [exact Hd|reflexivity]].
  destruct (heap st !! filtered) as [fv|]; [|split; [exact Hd|reflexivity]].
  destruct (drop_unnamed d fv) as [out|e]; [|split; [exact Hd|reflexivity]].
  cbn [snd heap next]. split; [|reflexivity]. rewrite lookup_insert_ne by auto. exact Hd.
Qed.

Lemma export_step_store filtered st : snd (export_step filtered st) = st.
Proof.
  unfold export_step, bind, read, ret.
  destruct (heap st !! filtered); reflexivity.
Qed.

(** C9: whatever the selection, and whether or not a later statement
    raises, the frame behind [df] is after the filtering, the aggregations,
    the drop of the placeholder columns and the export what it was after the
    load. *)
Theorem dataset_unchanged (st : store) (df : nat) (sel : Selection) :
  (df < next st)%nat ->
  heap (snd (after_load df sel st)) !! df = heap st !! df.
Proof.
  intros Hlt. unfold after_load. unfold bind at 1.
  pose proof (filter_step_store df sel st Hlt) as Hf.
  destruct (filter_step df sel st) as [[filtered|e] st1]; [|now subst].
  destruct Hf as (-> & Hn & Hh & _).
  unfold bind at 1. pose proof (aggregate_step_store (next st) st1) as Ha.
  destruct (aggregate_step (next st) st1) as [[a|e] st2]; simpl in Ha; subst st2;
    [|exact Hh].
  unfold bind at 1.
  destruct (drop_step_store df (next st) st1 ltac:(lia)) as [Hd _].
  destruct (drop_step df (next st) st1) as [[[]|e] st3]; cbn [snd] in Hd |- *;
    [|now rewrite Hd].
  unfold bind. pose proof (export_step_store (next st) st3) as He.
  destruct (export_step (next st) st3) as [[csv|e] st4]; cbn [snd] in He; subst st4;
    unfold ret; cbn [snd]; now rewrite Hd.
Qed.

Example dashboard_ex_raw :
  exists out st,
    dashboard ex_raw ex_sel_FR empty_store = (Ok out, st) /\
    heap st !! 0%nat = Some ex_df /\
    (exists fv, heap st !! 1%nat = Some fv /\
                columns fv = ["memberStateCode"; "product"; "variety_name"; "price";
                              "beginDate"; "month"]).
Proof.
  do 2 eexists. split; [vm_compute; reflexivity|].
  split; [reflexivity|]. eexists. split; reflexivity.
Qed.

Lemma dataset_unchanged_witness :
  (0 < next ex_store)%nat /\
  heap (snd (after_load 0 ex_sel_FR ex_store)) !! 0%nat = heap ex_store !! 0%nat.
Proof.
  assert (H : (0 < next ex_store)%nat) by (vm_compute; lia).
  split; [exact H|]. exact (dataset_unchanged ex_store 0 ex_sel_FR H).
Defined.

(** ** The tokenizer reads back what the writer wrote *)














(** ** Digits *)

Open Scope Z_scope.

Lemma digit_char_spec d :
  0 <= d <= 9 -> is_digit (digit_char d) = true /\ digit_val (digit_char d) = d.
Proof.
  intros Hd. unfold is_digit, digit_val, digit_char.
  rewrite nat_ascii_embedding by lia.
  rewrite andb_true_iff, !Nat.leb_le. lia.
Qed.

Lemma digits_value_app acc a b :
  digits_value acc (a ++ b) =
  match digits_value acc a with Some v => digits_value v b | None => None end.
Proof.
  revert acc. induction a as [|c a IH]; intros acc; simpl; [reflexivity|].
  destruct (is_digit c); [apply IH|reflexivity].
Qed.

Lemma fixed_digits_value k x acc :
  0 <= x ->
  digits_value acc (fixed_digits k x) = Some (acc * 10 ^ Z.of_nat k + x mod 10 ^ Z.of_nat k).
Proof.
  revert x acc. induction k as [|k IH]; intros x acc Hx.
  - simpl. rewrite Z.mod_1_r. f_equal. lia.
  - cbn [fixed_digits]. rewrite digits_value_app, IH by (apply Z.div_pos; lia).
    assert (Hd : 0 <= x mod 10 <= 9) by (pose proof (Z.mod_pos_bound x 10); lia).
    destruct (digit_char_spec _ Hd) as [H1 H2]. cbn [digits_value]. rewrite H1, H2.
    f_equal. rewrite Nat2Z.inj_succ, Z.pow_succ_r by lia.
    rewrite (Z.rem_mul_r x 10 (10 ^ Z.of_nat k)) by lia. lia.
Qed.

Lemma fixed_digits_all k x : 0 <= x -> forallb is_digit (fixed_digits k x) = true.
Proof.
  revert x. induction k as [|k IH]; intros x Hx; [reflexivity|].
  cbn [fixed_digits]. rewrite forallb_app, IH by (apply Z.div_pos; lia).
  assert (Hd : 0 <= x mod 10 <= 9) by (pose proof (Z.mod_pos_bound x 10); lia).
  destruct (digit_char_spec _ Hd) as [H1 _]. simpl. now rewrite H1.
Qed.

Lemma fixed_digits_length k x : length (fixed_digits k x) = k.
Proof.
  revert x. induction k as [|k IH]; intros x; [reflexivity|].
  cbn [fixed_digits]. rewrite length_app, IH. simpl. lia.
Qed.









Close Scope Z_scope.

(** ** Numbers and dates read back *)

Open Scope Z_scope.





Close Scope Z_scope.











(** ** The export and its re-reading *)



Example to_csv_header_only :
  exists fv out,
    filtered_df ex_df ex_sel_no_month = Ok fv /\ drop_unnamed ex_df fv = Ok out /\
    string_of_list_ascii (to_csv out) =
    String.append "memberStateCode,product,variety_name,price,beginDate,month"
                  (String LF EmptyString).
Proof. do 2 eexists. split; [reflexivity|]. split; reflexivity. Qed.



(** * Further properties *)

(** ** The filter: missing columns, composition *)





Lemma filter_columns_same_columns d d' :
  columns d' = columns d -> filter_columns d -> filter_columns d'.
Proof. unfold filter_columns, has_column. now intros ->. Qed.

Lemma row_selected_same_columns d d' sel r :
  columns d' = columns d -> row_selected d' sel r = row_selected d sel r.
Proof. intros H. unfold row_selected, field. now rewrite H. Qed.

Lemma filtered_df_rows df sel fv :
  filtered_df df sel = Ok fv ->
  filter_columns df /\ columns fv = columns df /\
  rows fv = List.filter (row_selected df sel) (rows df).
Proof.
  intros Hf. pose proof (filtered_df_KeyError _ _ _ Hf) as Hc.
  rewrite (filtered_df_filter _ _ Hc) in Hf. injection Hf as <-. auto.
Qed.

Lemma List_filter_filter {A} (f g : A -> bool) (l : list A) :
  List.filter f (List.filter g l) = List.filter g (List.filter f l).
Proof.
  rewrite !filter_filter_andb. apply filter_ext. intros x. apply andb_comm.
Qed.

(** X2: filtering a Filtered View again by the same selection returns it
    unchanged, and two filters applied one after the other give the same
    frame in either order. *)
Theorem filtered_df_compose (df : DataFrame) (s1 s2 : Selection) (v1 : DataFrame) :
  filtered_df df s1 = Ok v1 ->
  filtered_df v1 s1 = Ok v1 /\
  forall w1, filtered_df df s2 = Ok w1 ->
             exists v2, filtered_df v1 s2 = Ok v2 /\ filtered_df w1 s1 = Ok v2.
Proof.
  intros H1. destruct (filtered_df_rows _ _ _ H1) as (Hc & Hcols & Hrows).
  pose proof (filter_columns_same_columns _ _ Hcols Hc) as Hc1.
  split.
  - rewrite (filtered_df_filter _ _ Hc1).
    rewrite (filter_ext _ _ (fun r => row_selected_same_columns df v1 s1 r Hcols)).
    assert (E : List.filter (row_selected df s1) (rows v1) = rows v1).
    { rewrite Hrows, filter_filter_andb. apply filter_ext. intros r. apply andb_diag. }
    rewrite E. now destruct v1.
  - intros w1 H2. destruct (filtered_df_rows _ _ _ H2) as (_ & Hcols2 & Hrows2).
    pose proof (filter_columns_same_columns _ _ Hcols2 Hc) as Hc2.
    eexists. split; [apply filtered_df_filter, Hc1|].
    rewrite (filtered_df_filter _ _ Hc2). rewrite Hcols, Hcols2. f_equal. f_equal.
    rewrite (filter_ext _ _ (fun r => row_selected_same_columns df w1 s1 r Hcols2)).
    rewrite (filter_ext _ _ (fun r => row_selected_same_columns df v1 s2 r Hcols)).
    rewrite Hrows, Hrows2. apply List_filter_filter.
Qed.

Lemma filtered_df_compose_witness :
  exists v1 w1 v2,
    filtered_df ex_df ex_sel_FR = Ok v1 /\ filtered_df v1 ex_sel_FR = Ok v1 /\
    filtered_df ex_df ex_sel_all = Ok w1 /\
    filtered_df v1 ex_sel_all = Ok v2 /\ filtered_df w1 ex_sel_FR = Ok v2.
Proof.
  assert (H1 : filtered_df ex_df ex_sel_FR =
               Ok (mkDF (columns ex_df) (firstn 2 (rows ex_df)))) by reflexivity.
  assert (H2 : filtered_df ex_df ex_sel_all = Ok ex_df) by reflexivity.
  destruct (filtered_df_compose ex_df ex_sel_FR ex_sel_all _ H1) as [Hi Hc].
  destruct (Hc _ H2) as (v2 & Ha & Hb).
  exists (mkDF (columns ex_df) (firstn 2 (rows ex_df))), ex_df, v2. auto.
Defined.

Lemma sublist_filter_impl {A} (f g : A -> bool) (l : list A) :
  (forall x, f x = true -> g x = true) ->
  sublist (List.filter f l) (List.filter g l).
Proof.
  intros H. induction l as [|x l IH]; simpl; [constructor|].
  destruct (f x) eqn:E.
  - rewrite (H x E). now constructor.
  - destruct (g x); [now constructor|exact IH].
Qed.

(** X3: selecting more never shows less: when every value selected by one
    selection is selected by another, the Filtered View of the first is a
    subsequence of the Filtered View of the second. *)
Theorem filtered_df_monotone (df : DataFrame) (sel sel' : Selection) (fv : DataFrame) :
  selection_included sel sel' ->
  filtered_df df sel = Ok fv ->
  exists fv', filtered_df df sel' = Ok fv' /\ sublist (rows fv) (rows fv').
Proof.
  intros (H1 & H2 & H3 & H4) Hf.
  destruct (filtered_df_rows _ _ _ Hf) as (Hc & _ & ->).
  eexists. split; [apply filtered_df_filter, Hc|]. cbn [rows].
  apply sublist_filter_impl. intros r. unfold row_selected.
  rewrite !andb_true_iff. intuition auto.
Qed.

Lemma filtered_df_monotone_witness :
  selection_included ex_sel_FR ex_sel_all /\
  exists fv fv',
    filtered_df ex_df ex_sel_FR = Ok fv /\ filtered_df ex_df ex_sel_all = Ok fv' /\
    sublist (rows fv) (rows fv').
Proof.
  assert (Hi : selection_included ex_sel_FR ex_sel_all).
  { unfold selection_included, isin1. simpl.
    repeat split; intros c; rewrite ?orb_false_r, ?orb_true_iff; tauto. }
  assert (H1 : filtered_df ex_df ex_sel_FR =
               Ok (mkDF (columns ex_df) (firstn 2 (rows ex_df)))) by reflexivity.
  split; [exact Hi|].
  destruct (filtered_df_monotone ex_df ex_sel_FR ex_sel_all _ Hi H1) as (fv' & Ha & Hb).
  eauto.
Defined.

(** ** The options of the widgets *)

Lemma cell_eqb_congr a b c : cell_eqb a b = true -> cell_eqb c a = cell_eqb c b.
Proof.
  intros H. apply eq_true_iff_eq. split; intros Hc.
  - eapply cell_eqb_trans; eauto.
  - eapply cell_eqb_trans; eauto. now rewrite cell_eqb_sym.
Qed.

Lemma isin1_congr l a b : cell_eqb a b = true -> isin1 l a = isin1 l b.
Proof.
  intros H. unfold isin1. induction l as [|x l IH]; simpl; [reflexivity|].
  rewrite IH. f_equal. rewrite (cell_eqb_sym a x), (cell_eqb_sym b x).
  now apply cell_eqb_congr.
Qed.

Lemma unique_acc_members seen s c :
  existsb (cell_eqb c) (unique_acc seen s) || existsb (cell_eqb c) seen =
  existsb (cell_eqb c) s || existsb (cell_eqb c) seen.
Proof.
  revert seen. induction s as [|x s IH]; intros seen; simpl; [reflexivity|].
  destruct (existsb (cell_eqb x) seen) eqn:E.
  - rewrite IH. destruct (cell_eqb c x) eqn:Ec; [|reflexivity].
    change (isin1 seen x = true) in E. rewrite <- (isin1_congr seen c x Ec) in E.
    unfold isin1 in E. rewrite E. simpl. apply orb_true_r.
  - simpl. specialize (IH (seen ++ [x])). rewrite !existsb_app in IH. simpl in IH.
    rewrite orb_false_r in IH.
    destruct (cell_eqb c x), (existsb (cell_eqb c) seen);
      rewrite ?orb_true_r, ?orb_false_r in *; simpl in *; auto.
Qed.

Lemma unique_acc_fresh seen s x :
  In x (unique_acc seen s) -> existsb (cell_eqb x) seen = false.
Proof.
  revert seen. induction s as [|y s IH]; intros seen; simpl; [tauto|].
  destruct (existsb (cell_eqb y) seen) eqn:E; [apply IH|].
  intros [<-|Hin]; [exact E|].
  apply IH in Hin. rewrite existsb_app in Hin. now apply orb_false_iff in Hin.
Qed.

Lemma unique_acc_distinct seen s :
  ForallOrdPairs (fun a b => cell_eqb a b = false) (unique_acc seen s).
Proof.
  revert seen. induction s as [|y s IH]; intros seen; simpl; [constructor|].
  destruct (existsb (cell_eqb y) seen); [apply IH|].
  constructor; [|apply IH].
  apply List.Forall_forall. intros x Hx. apply unique_acc_fresh in Hx.
  rewrite existsb_app in Hx. apply orb_false_iff in Hx as [_ Hx]. simpl in Hx.
  rewrite orb_false_r in Hx. now rewrite cell_eqb_sym.
Qed.

Lemma unique_acc_sublist seen s : sublist (unique_acc seen s) s.
Proof.
  revert seen. induction s as [|y s IH]; intros seen; simpl; [constructor|].
  destruct (existsb (cell_eqb y) seen); constructor; apply IH.
Qed.


(** ** The loader keeps the rest of the table *)

Lemma load_Ok_beginDate raw df :
  load raw = Ok df -> exists i, index_of "beginDate" (columns raw) = Some i.
Proof.
  unfold load, getitem.
  destruct (index_of "beginDate" (columns raw)) as [i|]; [eauto|discriminate].
Qed.

Lemma load_row_length raw i r d :
  length (cells r) = length (columns raw) ->
  length (cells (load_row raw i r d)) = length (load_columns raw).
Proof.
  intros H. unfold load_row, load_columns.
  destruct (index_of "month" (columns raw)); simpl.
  - now rewrite !length_insert.
  - rewrite !length_app, length_insert. simpl. lia.
Qed.

Lemma load_row_other raw i r d name k :
  length (cells r) = length (columns raw) ->
  index_of name (columns raw) = Some k -> k <> i -> name <> "month" ->
  index_of name (load_columns raw) = Some k /\
  cell_at k (load_row raw i r d) = cell_at k r.
Proof.
  intros Hlen Hk Hki Hm. pose proof (index_of_lt _ _ _ Hk) as Hlt.
  unfold load_columns, load_row.
  destruct (index_of "month" (columns raw)) as [j|] eqn:Hj.
  - split; [exact Hk|].
    assert (k <> j) by (intros ->; apply Hm; eapply index_of_inj; eauto).
    now rewrite !cell_at_set_cell_ne.
  - split; [now apply index_of_app_l|].
    rewrite cell_at_add_cell_old by (simpl; rewrite length_insert; lia).
    now rewrite cell_at_set_cell_ne.
Qed.

(** X5: a load that succeeds keeps the rows, their labels and their order,
    keeps one cell per column in every row, adds the month column on the
    right unless the source has one, and leaves the cells of every column
    other than the begin date and the month as they were. *)
Theorem load_keeps_other_columns (raw df : DataFrame) :
  wf_frame raw -> load raw = Ok df ->
  columns df = load_columns raw /\ wf_frame df /\
  Forall2 (fun r r' =>
             label r' = label r /\
             forall name, has_column raw name -> name <> "beginDate" -> name <> "month" ->
                          field df name r' = field raw name r)
          (rows raw) (rows df).
Proof.
  intros Hwf Hload. destruct (load_Ok_beginDate _ _ Hload) as [i Hi].
  rewrite (load_unfold raw i Hwf Hi) in Hload.
  destruct (to_datetime (map (cell_at i) (rows raw))) as [parsed|] eqn:Hp; [|discriminate].
  injection Hload as <-. cbn [columns rows]. split; [reflexivity|].
  apply to_datetime_length in Hp. rewrite length_map in Hp.
  unfold wf_frame in *. cbn [columns rows].
  revert parsed Hp. induction Hwf as [|r rs Hr Hrs IH]; intros [|d parsed] Hp;
    try discriminate; cbn [zip_with].
  - split; constructor.
  - injection Hp as Hp. destruct (IH parsed Hp) as [IH1 IH2]. split.
    + constructor; [now apply load_row_length|exact IH1].
    + constructor; [|exact IH2]. split.
      * unfold load_row. now destruct (index_of "month" (columns raw)).
      * intros name Hn Hb Hm. destruct (index_of_In _ _ Hn) as [k Hk].
        assert (Hki : k <> i) by (intros ->; apply Hb; eapply index_of_inj; eauto).
        destruct (load_row_other raw i r d name k Hr Hk Hki Hm) as [Hk' Hc].
        unfold field. cbn [columns]. now rewrite Hk', Hk.
Qed.

Lemma load_keeps_other_columns_witness :
  wf_frame ex_raw /\ load ex_raw = Ok ex_df /\
  columns ex_df = load_columns ex_raw /\ wf_frame ex_df /\
  Forall2 (fun r r' =>
             label r' = label r /\
             forall name, has_column ex_raw name -> name <> "beginDate" -> name <> "month" ->
                          field ex_df name r' = field ex_raw name r)
          (rows ex_raw) (rows ex_df).
Proof.
  assert (Hwf : wf_frame ex_raw) by (repeat constructor).
  assert (Hl : load ex_raw = Ok ex_df) by reflexivity.
  split; [exact Hwf|]. split; [exact Hl|].
  exact (load_keeps_other_columns ex_raw ex_df Hwf Hl).
Defined.

(** ** Dates the loader accepts *)

Lemma match_d_day_text pad d rest :
  (1 <= d <= 31)%Z ->
  (x ← match_d (day_text pad d ++ "/"%char :: rest); match_slash x) = [(d, rest)].
Proof.
  intros Hd.
  assert (H : In d [1; 2; 3; 4; 5; 6; 7; 8; 9; 10; 11; 12; 13; 14; 15; 16; 17; 18; 19; 20;
                    21; 22; 23; 24; 25; 26; 27; 28; 29; 30; 31]%Z) by (simpl; lia).
  simpl in H.
  repeat (destruct H as [<-|H]; [destruct pad; reflexivity|]). destruct H.
Qed.

Lemma match_m_day_text {A} (a : A) pad m rest :
  (1 <= m <= 12)%Z ->
  (x ← match_m (day_text pad m ++ "/"%char :: rest); match_slash (a, fst x, snd x)) =
  [((a, m), rest)].
Proof.
  intros Hm.
  assert (H : In m [1; 2; 3; 4; 5; 6; 7; 8; 9; 10; 11; 12]%Z) by (simpl; lia).
  simpl in H.
  repeat (destruct H as [<-|H]; [destruct pad; reflexivity|]). destruct H.
Qed.

Lemma match_Y_fixed_digits y :
  (0 <= y < 10000)%Z -> match_Y (fixed_digits 4 y) = [(y, [])].
Proof.
  intros Hy. pose proof (fixed_digits_length 4 y) as Hl.
  pose proof (fixed_digits_all 4 y ltac:(lia)) as Ha.
  pose proof (fixed_digits_value 4 y 0 ltac:(lia)) as Hv.
  destruct (fixed_digits 4 y) as [|a [|b [|c [|e [|? ?]]]]]; try discriminate.
  cbn [forallb] in Ha. rewrite !andb_true_iff in Ha. destruct Ha as (Ha & Hb & Hc & He & _).
  cbn [digits_value] in Hv. rewrite Ha, Hb, Hc, He in Hv.
  cbn [match_Y]. rewrite Ha, Hb, Hc, He. cbn [andb].
  injection Hv as Hv. rewrite Z.mod_small in Hv by (simpl; lia).
  do 2 f_equal. lia.
Qed.

(** X6: every calendar date within the range of nanosecond timestamps,
    written day/month/year with a four-digit year and with or without a
    leading zero on the day and on the month, is parsed to that date. *)
Theorem strptime_dmy_text (pad_d pad_m : bool) (y m d : Z) :
  valid_date y m d && in_ns_bounds y m d = true ->
  strptime (dmy_text pad_d pad_m y m d) = Some (Date y m d).
Proof.
  intros Hv. pose proof Hv as Hv'.
  unfold valid_date, in_ns_bounds in Hv'. rewrite !andb_true_iff, !Z.leb_le in Hv'.
  destruct Hv' as (((((Hy & Hm1) & Hm2) & Hd1) & Hd2) & Hlo & Hhi).
  assert (Hdm : (d <= 31)%Z).
  { unfold days_in_month in Hd2.
    destruct (m =? 2)%Z; [destruct (is_leap y); lia|].
    destruct ((m =? 4)%Z || (m =? 6)%Z || (m =? 9)%Z || (m =? 11)%Z); lia. }
  unfold strptime, dmy_text. rewrite list_ascii_of_string_of_list_ascii.
  unfold match_format. rewrite match_d_day_text by lia. cbn [mbind list_bind foldr app snd fst].
  rewrite match_m_day_text by lia. cbn [mbind list_bind foldr app snd fst].
  rewrite match_Y_fixed_digits by lia. cbn [mbind list_bind foldr app snd fst].
  now rewrite Hv.
Qed.

Lemma strptime_dmy_text_witness :
  valid_date 2024 2 9 && in_ns_bounds 2024 2 9 = true /\
  strptime (dmy_text false true 2024 2 9) = Some (Date 2024 2 9).
Proof.
  assert (H : valid_date 2024 2 9 && in_ns_bounds 2024 2 9 = true) by reflexivity.
  split; [exact H|]. exact (strptime_dmy_text false true 2024 2 9 H).
Defined.

(** ** Means lie within the prices *)

Open Scope Q_scope.







Close Scope Q_scope.

(** ** The summary metrics *)

Open Scope Q_scope.










Close Scope Q_scope.

(** ** The order of group keys *)

Lemma string_leb_cons a s b t :
  String.leb (String a s) (String b t) =
  match N.compare (N_of_ascii a) (N_of_ascii b) with
  | Eq => String.leb s t
  | Lt => true
  | Gt => false
  end.
Proof.
  unfold String.leb. cbn [String.compare]. unfold Ascii.compare.
  now destruct (N.compare (N_of_ascii a) (N_of_ascii b)).
Qed.

Lemma string_leb_nil_l s : String.leb EmptyString s = true.
Proof. now destruct s. Qed.

Lemma string_leb_trans s1 s2 s3 :
  String.leb s1 s2 = true -> String.leb s2 s3 = true -> String.leb s1 s3 = true.
Proof.
  revert s2 s3. induction s1 as [|a s1 IH]; intros s2 s3; [intros; apply string_leb_nil_l|].
  destruct s2 as [|b s2]; [discriminate|]. destruct s3 as [|c s3]; [discriminate|].
  rewrite !string_leb_cons.
  destruct (N.compare_spec (N_of_ascii a) (N_of_ascii b)) as [E1|E1|E1]; try discriminate;
    destruct (N.compare_spec (N_of_ascii b) (N_of_ascii c)) as [E2|E2|E2]; try discriminate;
    destruct (N.compare_spec (N_of_ascii a) (N_of_ascii c)) as [E3|E3|E3];
    try lia; auto. apply IH.
Qed.

Lemma string_leb_refl s : String.leb s s = true.
Proof. now destruct (String.leb_total s s). Qed.

Lemma cell_leb_total a b : cell_leb a b = false -> cell_leb b a = true.
Proof.
  destruct a as [|s|p|y m d], b as [|t|q|y' m' d']; simpl; try discriminate; auto.
  - intros H. destruct (String.leb_total s t); congruence.
  - intros H. apply Qle_bool_iff. apply not_true_iff_false in H.
    rewrite Qle_bool_iff in H. apply Qlt_le_weak. now apply Qnot_le_lt.
  - rewrite (Z.eqb_sym y' y), (Z.eqb_sym m' m).
    destruct (Z.eqb_spec y y'); [destruct (Z.eqb_spec m m')|];
      rewrite Z.leb_gt, Z.leb_le; lia.
Qed.

Lemma cell_leb_trans a b c :
  cell_leb a b = true -> cell_leb b c = true -> cell_leb a c = true.
Proof.
  destruct a as [|s|p|y m d], b as [|t|q|y' m' d'], c as [|u|r|y'' m'' d''];
    simpl; try discriminate; auto.
  - apply string_leb_trans.
  - rewrite !Qle_bool_iff. apply Qle_trans.
  - destruct (Z.eqb_spec y y'), (Z.eqb_spec y' y''), (Z.eqb_spec y y'');
      destruct (Z.eqb_spec m m'), (Z.eqb_spec m' m''), (Z.eqb_spec m m'');
      rewrite !Z.leb_le; lia.
Qed.

Lemma cell_eqb_leb a b : cell_eqb a b = true -> cell_leb a b = true.
Proof.
  destruct a as [|s|p|y m d], b as [|t|q|y' m' d']; simpl; try discriminate; auto.
  - intros ->%String.eqb_eq. apply string_leb_refl.
  - rewrite Qeq_bool_iff, Qle_bool_iff. intros ->. apply Qle_refl.
  - rewrite !andb_true_iff, !Z.eqb_eq. intros [[-> ->] ->].
    rewrite !Z.eqb_refl. apply Z.leb_refl.
Qed.

Lemma cell_leb_antisym a b :
  cell_leb a b = true -> cell_leb b a = true -> cell_eqb a b = true.
Proof.
  destruct a as [|s|p|y m d], b as [|t|q|y' m' d']; simpl; try discriminate; auto.
  - intros H1 H2. rewrite (String.leb_antisym _ _ H1 H2). apply String.eqb_refl.
  - rewrite !Qle_bool_iff, Qeq_bool_iff. apply Qle_antisym.
  - rewrite (Z.eqb_sym y' y), (Z.eqb_sym m' m).
    destruct (Z.eqb_spec y y'); [destruct (Z.eqb_spec m m')|];
      rewrite !Z.leb_le; simpl; lia.
Qed.

Lemma key_leb_total a b : key_leb a b = false -> key_leb b a = true.
Proof.
  revert b. induction a as [|x a IH]; intros [|y b]; simpl; try discriminate; auto.
  rewrite (cell_eqb_sym y x). destruct (cell_eqb x y); [apply IH|apply cell_leb_total].
Qed.

Lemma key_eqb_leb a b : key_eqb a b = true -> key_leb a b = true.
Proof.
  revert b. induction a as [|x a IH]; intros [|y b]; simpl; try discriminate; auto.
  rewrite andb_true_iff. intros [-> H]. now apply IH.
Qed.

Lemma key_leb_antisym a b :
  key_leb a b = true -> key_leb b a = true -> key_eqb a b = true.
Proof.
  revert b. induction a as [|x a IH]; intros [|y b]; simpl; try discriminate; auto.
  rewrite (cell_eqb_sym y x). destruct (cell_eqb x y) eqn:E; [apply IH|].
  intros H1 H2. rewrite (cell_leb_antisym _ _ H1 H2) in E. discriminate.
Qed.

Lemma key_leb_trans a b c :
  key_leb a b = true -> key_leb b c = true -> key_leb a c = true.
Proof.
  revert b c. induction a as [|x a IH]; intros [|y b] [|z c]; simpl; try discriminate; auto.
  destruct (cell_eqb x y) eqn:Exy, (cell_eqb y z) eqn:Eyz.
  - rewrite (cell_eqb_trans _ _ _ Exy Eyz). apply IH.
  - intros _ Hyz. destruct (cell_eqb x z) eqn:Exz.
    + rewrite cell_eqb_sym in Exy.
      rewrite (cell_eqb_trans _ _ _ Exy Exz) in Eyz. discriminate.
    + eapply cell_leb_trans; [apply cell_eqb_leb; exact Exy|exact Hyz].
  - intros Hxy _. destruct (cell_eqb x z) eqn:Exz.
    + rewrite cell_eqb_sym in Eyz.
      rewrite (cell_eqb_trans _ _ _ Exz Eyz) in Exy. discriminate.
    + eapply cell_leb_trans; [exact Hxy|apply cell_eqb_leb; exact Eyz].
  - intros Hxy Hyz. pose proof (cell_leb_trans _ _ _ Hxy Hyz) as Hxz.
    destruct (cell_eqb x z) eqn:Exz; [|exact Hxz].
    rewrite cell_eqb_sym in Exz. apply cell_eqb_leb in Exz.
    pose proof (cell_leb_trans _ _ _ Hyz Exz) as Hyx.
    rewrite (cell_leb_antisym _ _ Hxy Hyx) in Exy. discriminate.
Qed.

Lemma key_lt_leb_trans a b c : key_leb a b = true -> key_lt b c -> key_lt a c.
Proof.
  intros Hab [Hbc Hne]. split; [eapply key_leb_trans; eauto|].
  apply not_true_is_false. intros Hac.
  rewrite key_eqb_sym in Hac. apply key_eqb_leb in Hac.
  pose proof (key_leb_trans _ _ _ Hac Hab) as Hcb.
  rewrite (key_leb_antisym _ _ Hbc Hcb) in Hne. discriminate.
Qed.

Lemma insert_key_sorted k l :
  StronglySorted key_lt l -> StronglySorted key_lt (insert_key k l).
Proof.
  induction 1 as [|y l Hl IH Hy]; cbn [insert_key].
  - repeat constructor.
  - destruct (key_eqb k y) eqn:E; [now constructor|].
    destruct (key_leb k y) eqn:L.
    + constructor; [now constructor|]. constructor; [now split|].
      eapply Forall_impl; [exact Hy|]. intros z Hz. cbn in Hz.
      now apply (key_lt_leb_trans k y z).
    + constructor; [exact IH|].
      apply List.Forall_forall. intros z Hz. apply In_insert_key in Hz as [->|Hz].
      * split; [now apply key_leb_total|now rewrite key_eqb_sym].
      * now apply (proj1 (List.Forall_forall _ _) Hy).
Qed.

Lemma sort_keys_sorted l : StronglySorted key_lt (sort_keys l).
Proof.
  induction l as [|k l IH]; cbn; [constructor|]. now apply insert_key_sorted.
Qed.

Lemma group_means_keys ixs iv rs :
  map fst (group_means ixs iv rs) = sort_keys (map (key_of ixs) (live_rows ixs rs)).
Proof. unfold group_means. rewrite map_map. cbn [fst]. apply map_id. Qed.

Lemma group_means_sorted ixs iv rs :
  StronglySorted key_lt (map fst (group_means ixs iv rs)).
Proof. rewrite group_means_keys. apply sort_keys_sorted. Qed.

(** X9: the entries of a grouped mean come in strictly ascending key order
    (keys compared column by column), so no key occurs twice. *)
Theorem groupby_mean_sorted (d : DataFrame) (keys : list string) (val : string)
        (s : list Entry) :
  groupby_mean d keys val = Ok s -> StronglySorted key_lt (map fst s).
Proof.
  intros H. destruct (groupby_mean_group_means _ _ _ _ H) as (ixs & iv & ->).
  apply group_means_sorted.
Qed.

Lemma groupby_mean_sorted_witness :
  exists s, trend_df ex_df = Ok s /\ StronglySorted key_lt (map fst s).
Proof.
  eexists. split; [reflexivity|].
  apply (groupby_mean_sorted ex_df ["beginDate"; "memberStateCode"; "product"] "price").
  reflexivity.
Defined.





(** ** The trend lines *)

Lemma StronglySorted_map_iff {A B} (R : B -> B -> Prop) (f : A -> B) (l : list A) :
  StronglySorted R (map f l) -> StronglySorted (fun a b => R (f a) (f b)) l.
Proof.
  induction l as [|x l IH]; cbn [map]; intros H; [constructor|].
  inversion H as [|? ? Hl Hx]; subst. constructor; [now apply IH|].
  apply List.Forall_forall. intros y Hy.
  apply (proj1 (List.Forall_forall _ _) Hx). now apply in_map.
Qed.

Lemma sorted_filter_map {A B} (R : A -> A -> Prop) (R' : B -> B -> Prop)
      (P : A -> bool) (g : A -> B) (l : list A) :
  (forall a b, In a l -> In b l -> P a = true -> P b = true -> R a b -> R' (g a) (g b)) ->
  StronglySorted R l -> StronglySorted R' (map g (List.filter P l)).
Proof.
  intros H Hs. induction Hs as [|x l Hl IH Hx]; cbn [List.filter map]; [constructor|].
  assert (IH' : StronglySorted R' (map g (List.filter P l))).
  { apply IH. intros a b Ha Hb. apply H; now right. }
  destruct (P x) eqn:Px; [|exact IH']. cbn [map]. constructor; [exact IH'|].
  apply List.Forall_forall. intros y (b & <- & Hb)%in_map_iff.
  apply filter_In in Hb as [Hb Pb]. apply H; auto; [now left|now right|].
  now apply (proj1 (List.Forall_forall _ _) Hx).
Qed.

Lemma indices_length cols names ixs :
  indices cols names = Ok ixs -> length ixs = length names.
Proof.
  revert ixs. induction names as [|n ns IH]; cbn; intros ixs.
  - now intros [= <-].
  - destruct (index_of n cols); [|discriminate].
    destruct (indices cols ns) as [l|]; [|discriminate].
    intros [= <-]. cbn. now rewrite (IH l eq_refl).
Qed.

Lemma trend_df_keys fv trend e :
  trend_df fv = Ok trend -> In e trend -> length (fst e) = 3%nat.
Proof.
  unfold trend_df, groupby_mean.
  destruct (indices (columns fv) _) as [ixs|] eqn:Ei; [|discriminate].
  apply indices_length in Ei. cbn. destruct (getitem fv "price"); [|discriminate]. cbn.
  destruct (index_of "price" (columns fv)); [|discriminate].
  destruct (numeric a); [|discriminate]. intros [= <-] He.
  unfold group_means in He. apply in_map_iff in He as (k & <- & Hk%In_sort_keys).
  apply in_map_iff in Hk as (r & <- & _). unfold key_of. cbn [fst].
  now rewrite length_map.
Qed.

Lemma cell_equal_eqb a b c :
  cell_equal a c = true -> cell_equal b c = true -> cell_eqb a b = true.
Proof.
  unfold cell_equal. rewrite !andb_true_iff. intros [_ Ha] [_ Hb].
  eapply cell_eqb_trans; [exact Ha|]. now rewrite cell_eqb_sym.
Qed.

(** X11: the trend chart gets one line per selected country and selected
    product, in loop order, also for pairs without data; along every line the
    dates are strictly ascending, so no date occurs twice on a line. Without
    a date column nothing is drawn and nothing raises. *)
Theorem trend_lines_sorted (fv : DataFrame) (sel : Selection) :
  (has_column fv "beginDate" ->
   forall lines,
     trend_lines fv sel = Ok (Some lines) ->
     map fst lines = flat_map (fun c => map (fun p => (c, p)) (selected_products sel))
                              (selected_countries sel) /\
     forall c p line, In (c, p, line) lines -> StronglySorted cell_lt (map fst line)) /\
  (~ has_column fv "beginDate" -> trend_lines fv sel = Ok None).
Proof.
  unfold trend_lines, has_column. split.
  - intros Hb lines. apply existsb_eqb_In in Hb. rewrite Hb.
    destruct (trend_df fv) as [trend|] eqn:Et; [|discriminate]. cbn. intros [= <-].
    split.
    + induction (selected_countries sel) as [|c cs IH]; [reflexivity|].
      cbn [flat_map]. rewrite map_app, IH. f_equal. rewrite map_map. reflexivity.
    + intros c p line Hin. apply in_flat_map in Hin as (c' & _ & Hin).
      apply in_map_iff in Hin as (p' & [= <- <- <-] & _).
      unfold trend_line. rewrite map_map. cbn [fst]. unfold trend_subset.
      apply (sorted_filter_map (fun a b => key_lt (fst a) (fst b))).
      2:{ apply StronglySorted_map_iff.
          destruct (groupby_mean_group_means _ _ _ _ Et) as (ixs & iv & ->).
          apply group_means_sorted. }
      intros a b Ha Hb' Pa Pb [Hle Hne].
      pose proof (trend_df_keys _ _ _ Et Ha) as La.
      pose proof (trend_df_keys _ _ _ Et Hb') as Lb.
      destruct a as [ka va], b as [kb vb]. cbn [fst] in *.
      destruct ka as [|d1 [|c1 [|p1 [|? ?]]]]; try discriminate.
      destruct kb as [|d2 [|c2 [|p2 [|? ?]]]]; try discriminate.
      cbn [nth] in *. apply andb_true_iff in Pa as [Pa1 Pa2].
      apply andb_true_iff in Pb as [Pb1 Pb2].
      pose proof (cell_equal_eqb _ _ _ Pa1 Pb1) as Ec.
      pose proof (cell_equal_eqb _ _ _ Pa2 Pb2) as Ep.
      cbn [key_leb key_eqb] in Hle, Hne. rewrite Ec, Ep in Hne.
      cbn [andb] in Hne. rewrite andb_true_r in Hne. rewrite Hne in Hle.
      split; assumption.
  - intros Hb. destruct (existsb (String.eqb "beginDate") (columns fv)) eqn:E;
      [|reflexivity].
    apply existsb_eqb_In in E. contradiction.
Qed.

Lemma trend_lines_sorted_witness :
  has_column ex_df "beginDate" /\
  (exists lines,
     trend_lines ex_df ex_sel_all = Ok (Some lines) /\
     map fst lines = [(Str "FR", Str "Apple"); (Str "FR", Str "Pear");
                      (Str "NL", Str "Apple"); (Str "NL", Str "Pear")] /\
     forall c p line, In (c, p, line) lines -> StronglySorted cell_lt (map fst line)) /\
  ~ has_column ex_ties_nodate "beginDate" /\
  trend_lines ex_ties_nodate ex_sel_all = Ok None.
Proof.
  assert (Hb : has_column ex_df "beginDate") by columns_present.
  assert (Hn : ~ has_column ex_ties_nodate "beginDate").
  { unfold has_column. simpl. intuition discriminate. }
  split; [exact Hb|]. split.
  - eexists. split; [reflexivity|].
    apply (proj1 (trend_lines_sorted ex_df ex_sel_all) Hb). reflexivity.
  - split; [exact Hn|]. exact (proj2 (trend_lines_sorted ex_ties_nodate ex_sel_all) Hn).
Defined.

(** ** The tables *)

Lemma labels_sorted n (s : list Entry) : StronglySorted cell_lt (labels n s).
Proof.
  unfold labels.
  assert (H : forall ks : list Key,
             Forall (fun k => exists x, k = [x]) ks -> StronglySorted key_lt ks ->
             StronglySorted cell_lt (map (fun k => nth O k NaN) ks)).
  { intros ks Hsingle Hs. induction Hs as [|k ks Hks IH Hk]; cbn [map]; [constructor|].
    inversion Hsingle as [|? ? [x ->] Hrest]; subst. constructor; [now apply IH|].
    apply List.Forall_forall. intros c (k' & <- & Hk')%in_map_iff.
    pose proof (proj1 (List.Forall_forall _ _) Hk k' Hk') as [Hle Hne].
    destruct (proj1 (List.Forall_forall _ _) Hrest k' Hk') as [y ->].
    cbn in *. rewrite andb_true_r in Hne. rewrite Hne in Hle. now split. }
  apply H; [|apply sort_keys_sorted].
  apply List.Forall_forall. intros k Hk%In_sort_keys.
  apply in_map_iff in Hk as (e & <- & _). unfold level. eauto.
Qed.

Lemma unstack_shape (s : list Entry) : table_shape (unstack s).
Proof.
  unfold table_shape, unstack. cbn [t_index t_columns t_values].
  split; [now rewrite length_map|]. split; [|split; apply labels_sorted].
  apply List.Forall_forall. intros row (c & <- & _)%in_map_iff. now rewrite length_map.
Qed.

(** X12: the table of mean prices by country and product and the table by
    country and variety are rectangular: one row of cells per row label, one
    cell per column label in every row, and row labels and column labels
    each strictly ascending. *)
Theorem tables_shape (fv : DataFrame) (t : Table) :
  avg_prices fv = Ok t \/ price_comparison fv = Ok t -> table_shape t.
Proof.
  unfold avg_prices, price_comparison. intros [H|H].
  - destruct (groupby_mean fv _ "price"); [|discriminate]. cbn in H.
    injection H as <-. apply unstack_shape.
  - destruct (groupby_mean fv _ "price"); [|discriminate]. cbn in H.
    injection H as <-. apply unstack_shape.
Qed.

Lemma tables_shape_witness :
  exists t, price_comparison ex_df = Ok t /\ table_shape t.
Proof.
  eexists. split; [reflexivity|].
  apply (tables_shape ex_df). right. reflexivity.
Defined.




(** ** The rankings of few varieties *)








(** ** The drop keeps the other columns *)

Lemma take_mask_kept (P : string -> bool) name cols (cs : list cell) :
  length cs = length cols -> P name = true -> In name cols ->
  exists k k',
    index_of name cols = Some k /\ index_of name (List.filter P cols) = Some k' /\
    nth k' (take_mask cs (map P cols)) NaN = nth k cs NaN.
Proof.
  revert cs. induction cols as [|c cols IH]; intros [|x cs] Hlen HP Hin;
    try discriminate; [destruct Hin|].
  injection Hlen as Hlen. cbn [index_of List.filter map take_mask].
  destruct (String.eqb_spec c name) as [->|Hne].
  - rewrite HP. cbn [index_of]. rewrite String.eqb_refl. exists O, O. auto.
  - destruct Hin as [Hin|Hin]; [contradiction|].
    destruct (IH cs Hlen HP Hin) as (k & k' & Hk & Hk' & Hn).
    rewrite Hk. destruct (P c); cbn [index_of option_map].
    + destruct (String.eqb_spec c name); [contradiction|]. rewrite Hk'.
      exists (S k), (S k'). auto.
    + rewrite Hk'. exists (S k), k'. auto.
Qed.

Lemma take_mask_length (P : string -> bool) cols (cs : list cell) :
  length cs = length cols ->
  length (take_mask cs (map P cols)) = length (List.filter P cols).
Proof.
  revert cs. induction cols as [|c cols IH]; intros [|x cs] Hlen; try discriminate;
    [reflexivity|].
  injection Hlen as Hlen. cbn [map take_mask List.filter].
  destruct (P c); cbn [length]; rewrite (IH cs Hlen); reflexivity.
Qed.

Lemma wf_frame_filtered df sel fv :
  wf_frame df -> filtered_df df sel = Ok fv -> wf_frame fv.
Proof.
  intros Hwf Hf. destruct (filtered_df_rows _ _ _ Hf) as (_ & Hc & Hr).
  unfold wf_frame in *. rewrite Hc, Hr. apply List.Forall_forall.
  intros r [Hr' _]%filter_In. now apply (proj1 (List.Forall_forall _ _) Hwf).
Qed.

(** X16: the drop of the placeholder columns keeps every row, its label and
    its place, keeps one cell per remaining column, and leaves the cell of
    every remaining column as it was in the Filtered View. *)
Theorem drop_keeps_values (df : DataFrame) (sel : Selection) (fv : DataFrame) :
  wf_frame df -> filtered_df df sel = Ok fv ->
  exists out,
    drop_unnamed df fv = Ok out /\ wf_frame out /\
    Forall2 (fun r r' =>
               label r' = label r /\
               forall name, has_column fv name -> contains_unnamed name = false ->
                            field out name r' = field fv name r)
            (rows fv) (rows out).
Proof.
  intros Hwf Hf. pose proof (wf_frame_filtered _ _ _ Hwf Hf) as Hwfv.
  destruct (filtered_columns_of _ _ _ Hf) as [_ Hd].
  eexists. split; [exact Hd|]. unfold wf_frame in *. cbn [columns rows].
  unfold kept_columns. clear Hd Hf Hwf.
  induction Hwfv as [|r rs Hr _ IH]; cbn [map].
  - split; constructor.
  - destruct IH as [IH1 IH2]. split.
    + constructor; [|exact IH1]. unfold kept_cells. cbn [cells].
      now apply take_mask_length.
    + constructor; [|exact IH2]. split; [reflexivity|].
      intros name Hn Hu.
      destruct (take_mask_kept (fun c => negb (contains_unnamed c)) name
                               (columns fv) (cells r) Hr)
        as (k & k' & Hk & Hk' & Hnth); [now rewrite Hu|exact Hn|].
      unfold field. cbn [columns]. rewrite Hk, Hk'. unfold cell_at, kept_cells.
      cbn [cells]. exact Hnth.
Qed.

Lemma drop_keeps_values_witness :
  wf_frame ex_df /\
  exists fv out,
    filtered_df ex_df ex_sel_FR = Ok fv /\
    drop_unnamed ex_df fv = Ok out /\ wf_frame out /\
    Forall2 (fun r r' =>
               label r' = label r /\
               forall name, has_column fv name -> contains_unnamed name = false ->
                            field out name r' = field fv name r)
            (rows fv) (rows out).
Proof.
  assert (Hwf : wf_frame ex_df) by (repeat constructor).
  assert (Hf : filtered_df ex_df ex_sel_FR =
               Ok (mkDF (columns ex_df) (firstn 2 (rows ex_df)))) by reflexivity.
  split; [exact Hwf|].
  destruct (drop_keeps_values ex_df ex_sel_FR _ Hwf Hf) as (out & H1 & H2 & H3).
  eauto 6.
Defined.

(** ** The whole run *)






(** ** Which column names count as placeholders *)







(** ** The number of varieties and the number of groups *)

Section Counting.

Variable A : Type.
Variable eqb : A -> A -> bool.
Hypothesis eqb_sym : forall a b, eqb a b = eqb b a.
Hypothesis eqb_trans : forall a b c, eqb a b = true -> eqb b c = true -> eqb a c = true.

Lemma distinct_length_le (l1 l2 : list A) :
  ForallOrdPairs (fun a b => eqb a b = false) l1 ->
  (forall k, In k l1 -> existsb (eqb k) l2 = true) ->
  (length l1 <= length l2)%nat.
Proof.
  intros Hd. revert l2. induction Hd as [|x l1 Hx Hd IH]; intros l2 Hin; cbn; [lia|].
  destruct (proj1 (existsb_exists _ _) (Hin x (or_introl eq_refl))) as (y & Hy & Exy).
  apply in_split in Hy as (pre & post & ->).
  rewrite length_app. cbn. rewrite Nat.add_succ_r, <- length_app.
  apply le_n_S, IH. intros k Hk.
  specialize (Hin k (or_intror Hk)).
  rewrite existsb_app in Hin. cbn in Hin. rewrite existsb_app.
  destruct (eqb k y) eqn:Eky; [|exact Hin].
  rewrite eqb_sym in Eky.
  pose proof (eqb_trans _ _ _ Exy Eky) as Exk.
  rewrite (proj1 (List.Forall_forall _ _) Hx k Hk) in Exk. discriminate.
Qed.

End Counting.

Lemma ForallOrdPairs_filter {A} (R : A -> A -> Prop) (f : A -> bool) l :
  ForallOrdPairs R l -> ForallOrdPairs R (List.filter f l).
Proof.
  induction 1 as [|x l Hx Hl IH]; cbn; [constructor|].
  destruct (f x); [|exact IH]. constructor; [|exact IH].
  apply List.Forall_forall. intros y Hy. apply filter_In in Hy as [Hy _].
  now apply (proj1 (List.Forall_forall _ _) Hx).
Qed.

Lemma ForallOrdPairs_map {A B} (R : B -> B -> Prop) (f : A -> B) l :
  ForallOrdPairs (fun a b => R (f a) (f b)) l -> ForallOrdPairs R (map f l).
Proof.
  induction 1 as [|x l Hx Hl IH]; cbn; constructor; [|exact IH].
  apply List.Forall_forall. intros y (z & <- & Hz)%in_map_iff.
  now apply (proj1 (List.Forall_forall _ _) Hx).
Qed.

Lemma ForallOrdPairs_weaken {A} (R R' : A -> A -> Prop) l :
  (forall a b, R a b -> R' a b) -> ForallOrdPairs R l -> ForallOrdPairs R' l.
Proof.
  intros HR. induction 1 as [|x l Hx Hl IH]; constructor; [|exact IH].
  eapply Forall_impl; [exact Hx|]. intros y. apply HR.
Qed.

Lemma sorted_distinct (l : list Key) :
  StronglySorted key_lt l -> ForallOrdPairs (fun a b => key_eqb a b = false) l.
Proof.
  induction 1 as [|x l Hl IH Hx]; constructor; [|exact IH].
  eapply Forall_impl; [exact Hx|]. now intros y [_ H].
Qed.

Lemma sublist_In {A} (l1 l2 : list A) x : sublist l1 l2 -> In x l1 -> In x l2.
Proof.
  induction 1 as [|y l1 l2 _ IH|y l1 l2 _ IH]; cbn; [tauto|intros [->|H]; auto|auto].
Qed.

Lemma nunique_groups i (rs : list Row) :
  nunique (map (cell_at i) rs) =
  length (sort_keys (map (key_of [i]) (live_rows [i] rs))).
Proof.
  unfold nunique.
  rewrite <- (length_map (fun c => [c])
                (List.filter (fun c => negb (is_nan c)) (unique (map (cell_at i) rs)))).
  apply Nat.le_antisymm;
    apply (distinct_length_le Key key_eqb key_eqb_sym key_eqb_trans).
  - apply ForallOrdPairs_map, ForallOrdPairs_filter.
    eapply ForallOrdPairs_weaken; [|apply unique_acc_distinct].
    intros a b H. cbn. now rewrite H.
  - intros k (c & <- & Hc)%in_map_iff. apply filter_In in Hc as [Hc Hn].
    apply (sublist_In _ _ _ (unique_acc_sublist [] _)) in Hc.
    apply in_map_iff in Hc as (r & <- & Hr).
    rewrite existsb_sort_keys. apply existsb_exists.
    exists [cell_at i r]. split; [|apply key_eqb_refl].
    apply in_map_iff. exists r. split; [reflexivity|].
    apply filter_In. split; [exact Hr|]. cbn. now rewrite orb_false_r.
  - apply sorted_distinct, sort_keys_sorted.
  - intros k Hk. apply In_sort_keys, in_map_iff in Hk as (r & <- & Hr).
    apply filter_In in Hr as [Hr Hn]. cbn in Hn. rewrite orb_false_r in Hn.
    pose proof (unique_acc_members [] (map (cell_at i) rs) (cell_at i r)) as Hm.
    cbn in Hm. rewrite !orb_false_r in Hm.
    assert (Hin : existsb (cell_eqb (cell_at i r)) (map (cell_at i) rs) = true).
    { apply existsb_exists. exists (cell_at i r).
      split; [now apply in_map|apply cell_eqb_refl]. }
    rewrite <- Hm in Hin. apply existsb_exists in Hin as (c & Hc & Ec).
    apply existsb_exists. exists [c]. split.
    + apply in_map_iff. exists c. split; [reflexivity|].
      apply filter_In. split; [exact Hc|].
      destruct c; try reflexivity. apply cell_eqb_NaN in Ec.
      rewrite Ec in Hn. discriminate.
    + cbn. now rewrite Ec.
Qed.

(** X20: the Unique Varieties metric is the number of groups the two
    rankings choose from: the varieties are counted once each, missing names
    left out, by the metric and by the grouping alike. *)
Theorem unique_varieties_groups (fv : DataFrame) (s : Summary) (means : list Entry) :
  summary fv = Ok s -> variety_means fv = Ok means ->
  unique_varieties s = length means.
Proof.
  unfold summary, variety_means, groupby_mean. cbn [indices].
  destruct (getitem fv "price") as [prices|] eqn:Ep; [|discriminate]. cbn.
  destruct (series_mean prices) as [avg|]; [|discriminate]. cbn.
  assert (Hv : getitem fv "variety_name" =
               match index_of "variety_name" (columns fv) with
               | Some i => Ok (map (cell_at i) (rows fv))
               | None => Err (KeyError "variety_name")
               end) by reflexivity.
  rewrite Hv. clear Hv.
  destruct (index_of "variety_name" (columns fv)) as [i|]; [|discriminate]. cbn.
  intros [= <-]. cbn [unique_varieties].
  destruct (index_of "price" (columns fv)) as [iv|]; [|discriminate].
  destruct (numeric prices); [|discriminate]. intros [= <-].
  rewrite nunique_groups, <- (group_means_keys [i] iv). apply List.length_map.
Qed.

Lemma unique_varieties_groups_witness :
  exists s means,
    summary ex_df = Ok s /\ variety_means ex_df = Ok means /\
    unique_varieties s = length means.
Proof.
  destruct (summary ex_df) as [s|] eqn:Es; [|vm_compute in Es; discriminate].
  destruct (variety_means ex_df) as [means|] eqn:Em; [|vm_compute in Em; discriminate].
  exists s, means. split; [reflexivity|]. split; [reflexivity|].
  exact (unique_varieties_groups ex_df s means Es Em).
Defined.
